(** * Reconciliation of image-generation jobs (src/App.js)

    A shallow embedding of the [App] component: the two pieces of React state
    ([images], [loadingImages]), the poller [checkStaleRequests], the
    per-request WebSocket handlers installed by [setupWebSocket], and the
    submitter [requestImageGeneration].

    Conventions.
    - A handler is a computation in the monad [js]: it threads the [world]
      (React state, the sockets created so far, the log of outward calls) and
      either completes or throws.  State written before a throw stays written.
    - A functional updater passed to a React setter is applied when the setter
      is called; updaters are applied in call order, which is what React does.
    - [Date.now()], the outcome of a [fetch] and the text of an inbound frame
      are inputs of the handler that consumes them; a [fetch] is logged where
      it is issued and its continuation takes the outcome as an argument.
    - Job ids are strings, as the keys of [loadingImages] are.
    - [console.log]/[console.error] are not part of the model. *)

From Stdlib Require Import ZArith Ascii String List Lia.
From Stdlib Require Import Floats.SpecFloat.
From stdpp Require Import base option list strings gmap fin_maps.

Local Open Scope Z_scope.

(** ** JavaScript values that reach the handlers *)

Module JS.

(** What [JSON.parse] and [response.json()] produce.  Numbers are IEEE
    doubles; an object is the list of its own properties, each key once. *)
#[local] Unset Elimination Schemes.
Inductive json :=
  | JNull
  | JBool (b : bool)
  | JNum (x : spec_float)
  | JStr (s : string)
  | JArr (xs : list json)
  | JObj (props : list (string * json)).
#[local] Set Elimination Schemes.

(** A value read from a property: [None] is [undefined]. *)
Definition value := option json.

(** ToBoolean. *)
Definition truthy (v : value) : bool :=
  match v with
  | None => false
  | Some JNull => false
  | Some (JBool b) => b
  | Some (JNum (S754_zero _)) => false
  | Some (JNum S754_nan) => false
  | Some (JNum _) => true
  | Some (JStr s) => negb (String.eqb s "")
  | Some (JArr _) => true
  | Some (JObj _) => true
  end.

Fixpoint own_property (k : string) (props : list (string * json)) : value :=
  match props with
  | [] => None
  | (k', v) :: rest => if String.eqb k' k then Some v else own_property k rest
  end.

(** [v === "lit"] for a string literal. *)
Definition is_string (lit : string) (v : value) : bool :=
  match v with
  | Some (JStr s) => String.eqb s lit
  | _ => false
  end.

(** [a || b] on values. *)
Definition or_else (a b : value) : value := if truthy a then a else b.

End JS.
Export JS.

(** ** The React state *)

(** An element of [images]: [{ id, url }] or [{ id, error: true, message }]. *)
Inductive img :=
  | ImgUrl (id : string) (url : value)
  | ImgError (id : string) (message : value).

Definition img_id (i : img) : string :=
  match i with
  | ImgUrl id _ => id
  | ImgError id _ => id
  end.

(** [prev => [...prev.filter(img => img.id !== entry.id), entry]] *)
Definition upsert (entry : img) (prev : list img) : list img :=
  filter (λ i, img_id i ≠ img_id entry) prev ++ [entry].

(** [prev => { const newState = { ...prev }; delete newState[reqId]; return newState; }] *)
Definition forget (reqId : string) (prev : gmap string Z) : gmap string Z :=
  delete reqId prev.

(** [prev => ({ ...prev, [request_id]: Date.now() })] *)
Definition remember (request_id : string) (now : Z) (prev : gmap string Z) : gmap string Z :=
  <[request_id := now]> prev.

(** ** The world a handler runs in *)

Inductive ReadyState := CONNECTING | OPEN | CLOSING | CLOSED.

(** A [WebSocket] object together with the [requestId] its handlers close
    over. *)
Record socket := Socket {
  sock_url : string;
  sock_requestId : string;
  readyState : ReadyState;
}.

(** A text frame: raw text, or [JSON.stringify] of an object literal. *)
Inductive frame :=
  | Text (s : string)
  | Stringify (j : json).

(** The two closures handed to [setTimeout] by [ws.onmessage]:
    [if (ws.readyState === WebSocket.OPEN) ws.close(1000, "Image received successfully")]
    and [if (ws.readyState === WebSocket.OPEN) ws.close()]. *)
Inductive timer :=
  | CloseAfterImage (ws : nat)
  | CloseAfterError (ws : nat).

Inductive request :=
  | GET (url : string)
  | POST (url : string) (body : json).

(** Calls a handler makes, logged in program order.  What a setter's updater
    does shows in the state. *)
Inductive call :=
  | SetImages
  | SetLoadingImages
  | SetConnectionStatus (s : string)
  | Send (ws : nat) (f : frame)
  | Close (ws : nat) (code : option Z) (reason : option string)
  | SetTimeout (t : timer) (ms : Z)
  | Fetch (r : request)
  | Alert (msg : string).

Record world := World {
  images : list img;
  loadingImages : gmap string Z;
  connectionStatus : string;
  sockets : list socket;
  calls : list call;
}.

Definition initial : world :=
  {| images := []; loadingImages := ∅; connectionStatus := "disconnected";
     sockets := []; calls := [] |}.

Definition log (c : call) (w : world) : world :=
  {| images := images w; loadingImages := loadingImages w;
     connectionStatus := connectionStatus w; sockets := sockets w;
     calls := calls w ++ [c] |}.

(** What a [fetch] gives back: a rejected promise, or a response with its
    status and what [response.json()] yields ([None]: it rejects). *)
Inductive fetch_result :=
  | Rejected
  | Response (status : Z) (body : option json).

(** [response.ok] *)
Definition ok (status : Z) : bool := (200 <=? status) && (status <=? 299).

(** ** The monad of handlers *)

Inductive exn :=
  | SyntaxError
  | TypeError
  | InvalidStateError
  | NetworkError
  | HttpError (status : Z).

Inductive outcome (A : Type) :=
  | Done (a : A)
  | Thrown (e : exn).
Arguments Done {A} a.
Arguments Thrown {A} e.

Definition js (A : Type) : Type := world → outcome A * world.

Definition ret {A} (a : A) : js A := λ w, (Done a, w).

Definition throw {A} (e : exn) : js A := λ w, (Thrown e, w).

Definition bind {A B} (m : js A) (k : A → js B) : js B :=
  λ w, match m w with
       | (Done a, w') => k a w'
       | (Thrown e, w') => (Thrown e, w')
       end.

(** [try { body } catch (e) { handler }] *)
Definition try_catch {A} (body : js A) (handler : exn → js A) : js A :=
  λ w, match body w with
       | (Done a, w') => (Done a, w')
       | (Thrown e, w') => handler e w'
       end.

Declare Scope js_scope.
Delimit Scope js_scope with js.
Notation "x <- m ;; k" := (bind m (λ x, k))
  (at level 100, m at next level, k at level 200, right associativity) : js_scope.
Notation "m ;; k" := (bind m (λ _, k))
  (at level 100, k at level 200, right associativity) : js_scope.
Local Open Scope js_scope.

Definition skip : js unit := ret tt.

(** Run a handler from the event loop: an exception that escapes is reported by
    the runtime and the state written so far stays. *)
Definition run {A} (m : js A) (w : world) : world := snd (m w).

(** *** Primitives *)

Definition setImages (f : list img → list img) : js unit :=
  λ w, (Done tt,
        log SetImages
          {| images := f (images w); loadingImages := loadingImages w;
             connectionStatus := connectionStatus w; sockets := sockets w;
             calls := calls w |}).

Definition setLoadingImages (f : gmap string Z → gmap string Z) : js unit :=
  λ w, (Done tt,
        log SetLoadingImages
          {| images := images w; loadingImages := f (loadingImages w);
             connectionStatus := connectionStatus w; sockets := sockets w;
             calls := calls w |}).

Definition setConnectionStatus (s : string) : js unit :=
  λ w, (Done tt,
        log (SetConnectionStatus s)
          {| images := images w; loadingImages := loadingImages w;
             connectionStatus := s; sockets := sockets w;
             calls := calls w |}).

Definition with_sockets (ss : list socket) (w : world) : world :=
  {| images := images w; loadingImages := loadingImages w;
     connectionStatus := connectionStatus w; sockets := ss;
     calls := calls w |}.

Definition set_readyState (st : ReadyState) (s : socket) : socket :=
  {| sock_url := sock_url s; sock_requestId := sock_requestId s; readyState := st |}.

(** [ws.readyState]; a handle that names no socket is a read through
    [undefined]. *)
Definition ws_readyState (ws : nat) : js ReadyState :=
  λ w, match sockets w !! ws with
       | Some s => (Done (readyState s), w)
       | None => (Thrown TypeError, w)
       end.

(** [ws.send(f)]: throws while connecting, transmits when open, and is
    dropped once the socket is closing or closed. *)
Definition ws_send (ws : nat) (f : frame) : js unit :=
  st <- ws_readyState ws ;;
  match st with
  | CONNECTING => throw InvalidStateError
  | OPEN => λ w, (Done tt, log (Send ws f) w)
  | CLOSING | CLOSED => skip
  end.

(** [ws.close(code, reason)] with a valid code and a short reason: starts the
    closing handshake unless the socket is already closing or closed. *)
Definition ws_close (ws : nat) (code : option Z) (reason : option string) : js unit :=
  st <- ws_readyState ws ;;
  match st with
  | CONNECTING | OPEN =>
      λ w, (Done tt,
            log (Close ws code reason)
              (with_sockets (alter (set_readyState CLOSING) ws (sockets w)) w))
  | CLOSING | CLOSED => skip
  end.

Definition setTimeout (t : timer) (ms : Z) : js unit :=
  λ w, (Done tt, log (SetTimeout t ms) w).

Definition fetch (r : request) : js unit :=
  λ w, (Done tt, log (Fetch r) w).

Definition alert (msg : string) : js unit :=
  λ w, (Done tt, log (Alert msg) w).

(** [data.k]: reading a property of [null] throws; a primitive or an array
    has none of the properties read here. *)
Definition prop (data : json) (k : string) : js value :=
  match data with
  | JNull => throw TypeError
  | JObj props => ret (own_property k props)
  | _ => ret None
  end.

(** [a && b] with its short circuit. *)
Definition js_and (a b : js bool) : js bool :=
  x <- a ;; if x then b else ret false.

(** [data.status === lit] *)
Definition status_is (data : json) (lit : string) : js bool :=
  s <- prop data "status" ;; ret (is_string lit s).

(** [data.k] used as a condition. *)
Definition prop_truthy (data : json) (k : string) : js bool :=
  v <- prop data k ;; ret (truthy v).

(** [for (const x of xs) { body }] *)
Fixpoint for_of {A} (xs : list A) (body : A → js unit) : js unit :=
  match xs with
  | [] => skip
  | x :: rest => body x ;; for_of rest body
  end.

(** ** The component *)

Section App.

(** [JSON.parse] on the text of a frame; [None]: it throws [SyntaxError]. *)
Variable JSON_parse : string → option json.

(** ToString, as applied to a computed property key and inside a template
    literal. *)
Variable ToString : value → string.

(** Whether [new WebSocket(url)] accepts the URL; it throws [SyntaxError]
    otherwise. *)
Variable WebSocket_accepts : string → bool.

Definition userId : string := "12345".

Definition status_url (reqId : string) : string :=
  "http://127.0.0.1:8888/status/" +:+ userId +:+ "/" +:+ reqId.

Definition ws_url (requestId : string) : string :=
  "ws://127.0.0.1:8888/ws/" +:+ userId +:+ "/" +:+ requestId.

(** *** checkStaleRequests *)

(** [Object.entries(loadingImages).filter(([_, timestamp]) => (now - timestamp) > 12000).map(([reqId]) => reqId)].
    The entries are visited in the order of [map_to_list], which is not the
    order of [Object.entries]. *)
Definition staleRequestIds (now : Z) (loadingImages : gmap string Z) : list string :=
  (filter (λ e : string * Z, now - e.2 > 12000) (map_to_list loadingImages)).*1.

(** The body of the [for] loop for one [reqId], given what its [fetch]
    gives back. *)
Definition poll (reqId : string) (r : fetch_result) : js unit :=
  try_catch
    (fetch (GET (status_url reqId)) ;;
     match r with
     | Rejected => throw NetworkError
     | Response status body =>
         if ok status then
           match body with
           | None => throw SyntaxError
           | Some data =>
               completed <- js_and (status_is data "completed") (prop_truthy data "result") ;;
               if completed then
                 result <- prop data "result" ;;
                 setImages (upsert (ImgUrl reqId result)) ;;
                 setLoadingImages (forget reqId)
               else
                 errored <- status_is data "error" ;;
                 if errored then
                   error <- prop data "error" ;;
                   setImages
                     (upsert (ImgError reqId
                                (or_else error (Some (JStr "Error generating image"))))) ;;
                   setLoadingImages (forget reqId)
                 else skip
           end
         else skip
     end)
    (λ _, skip).

(** One tick: [loadingImages] is the state the closure sees when the tick
    starts; [responses] gives the outcome of each status query. *)
Definition checkStaleRequests (now : Z) (responses : string → fetch_result) : js unit :=
  λ w, for_of (staleRequestIds now (loadingImages w))
         (λ reqId, poll reqId (responses reqId)) w.

(** *** setupWebSocket *)

Definition new_WebSocket (url requestId : string) : js nat :=
  if WebSocket_accepts url then
    λ w, (Done (length (sockets w)),
          with_sockets (sockets w ++ [Socket url requestId CONNECTING]) w)
  else throw SyntaxError.

Definition ready_message (requestId : string) : json :=
  JObj [("type", JStr "ready"); ("request_id", JStr requestId)].

Definition acknowledgment (requestId status : string) : json :=
  JObj [("type", JStr "acknowledgment"); ("request_id", JStr requestId);
        ("status", JStr status)].

Definition onopen (requestId : string) (ws : nat) : js unit :=
  setConnectionStatus "connected" ;;
  try_catch (ws_send ws (Stringify (ready_message requestId))) (λ _, skip).

(** The continuation of the status query issued on [already_sent]:
    [.then(response => response.json()).then(statusData => ...).catch(...)]. *)
Definition status_reply (requestId : string) (r : fetch_result) : js unit :=
  try_catch
    (match r with
     | Rejected => throw NetworkError
     | Response _ None => throw SyntaxError
     | Response _ (Some statusData) =>
         completed <- js_and (status_is statusData "completed")
                        (prop_truthy statusData "result") ;;
         if completed then
           result <- prop statusData "result" ;;
           setImages (upsert (ImgUrl requestId result)) ;;
           setLoadingImages (forget requestId)
         else skip
     end)
    (λ _, skip).

Definition onmessage (requestId : string) (ws : nat) (event_data : string) : js unit :=
  try_catch
    (if String.eqb event_data "pong" || String.eqb event_data "server_ping" then
       ws_send ws (Text "pong")
     else
       match JSON_parse event_data with
       | None => throw SyntaxError
       | Some data =>
           has_url <- prop_truthy data "image_url" ;;
           if has_url then
             image_url <- prop data "image_url" ;;
             setImages (upsert (ImgUrl requestId image_url)) ;;
             setLoadingImages (forget requestId) ;;
             try_catch
               (ws_send ws (Stringify (acknowledgment requestId "received")))
               (λ _, skip) ;;
             setTimeout (CloseAfterImage ws) 500
           else
             already_sent <- status_is data "already_sent" ;;
             if already_sent then
               fetch (GET (status_url requestId)) ;;
               ws_close ws None None
             else
               errored <- status_is data "error" ;;
               if errored then
                 message <- prop data "message" ;;
                 setImages
                   (upsert (ImgError requestId
                              (or_else message
                                 (Some (JStr "An error occurred during image generation"))))) ;;
                 setLoadingImages (forget requestId) ;;
                 try_catch
                   (ws_send ws (Stringify (acknowledgment requestId "error_received")))
                   (λ _, skip) ;;
                 setTimeout (CloseAfterError ws) 200
               else skip
       end)
    (λ _, skip).

Definition onerror (requestId : string) (ws : nat) : js unit :=
  setConnectionStatus "error".

Definition onclose (requestId : string) (ws : nat) : js unit :=
  setConnectionStatus "disconnected".

(** The callbacks registered with [setTimeout]. *)
Definition fire (t : timer) : js unit :=
  match t with
  | CloseAfterImage ws =>
      st <- ws_readyState ws ;;
      match st with
      | OPEN => ws_close ws (Some 1000) (Some "Image received successfully")
      | _ => skip
      end
  | CloseAfterError ws =>
      st <- ws_readyState ws ;;
      match st with
      | OPEN => ws_close ws None None
      | _ => skip
      end
  end.

Definition setupWebSocket (requestId : string) : js nat :=
  new_WebSocket (ws_url requestId) requestId.

(** *** requestImageGeneration *)

Definition requestImageGeneration (r : fetch_result) (now : Z) : js unit :=
  try_catch
    (fetch (POST "http://127.0.0.1:8888/generate" (JObj [("user_id", JStr userId)])) ;;
     match r with
     | Rejected => throw NetworkError
     | Response status body =>
         if negb (ok status) then throw (HttpError status)
         else
           match body with
           | None => throw SyntaxError
           | Some b =>
               request_id <- prop b "request_id" ;;
               setLoadingImages (remember (ToString request_id) now) ;;
               _ <- setupWebSocket (ToString request_id) ;;
               skip
           end
     end)
    (λ _, alert "Failed to request image generation. Please try again.").

(** *** The event loop *)

(** What the runtime delivers to the component.  A socket event reaches the
    handlers of the socket it names; a poll reply is one iteration of the
    loop of [checkStaleRequests], which runs whenever its [fetch] settles. *)
Inductive event :=
  | Generate (r : fetch_result) (now : Z)
  | PollTick (now : Z) (responses : string → fetch_result)
  | PollReply (reqId : string) (r : fetch_result)
  | WsOpen (ws : nat)
  | WsMessage (ws : nat) (event_data : string)
  | WsError (ws : nat)
  | WsClose (ws : nat)
  | TimerFired (t : timer)
  | StatusReply (requestId : string) (r : fetch_result).

(** The runtime moves a socket to [st]. *)
Definition transition (st : ReadyState) (ws : nat) : js unit :=
  λ w, (Done tt, with_sockets (alter (set_readyState st) ws (sockets w)) w).

(** Call a handler of socket [ws] with the [requestId] it closes over. *)
Definition on_socket (ws : nat) (handler : string → nat → js unit) : js unit :=
  λ w, match sockets w !! ws with
       | Some s => handler (sock_requestId s) ws w
       | None => (Done tt, w)
       end.

Definition handle (ev : event) : js unit :=
  match ev with
  | Generate r now => requestImageGeneration r now
  | PollTick now responses => checkStaleRequests now responses
  | PollReply reqId r => poll reqId r
  | WsOpen ws => transition OPEN ws ;; on_socket ws onopen
  | WsMessage ws event_data =>
      on_socket ws (λ requestId ws, onmessage requestId ws event_data)
  | WsError ws => on_socket ws onerror
  | WsClose ws => transition CLOSED ws ;; on_socket ws onclose
  | TimerFired t => fire t
  | StatusReply requestId r => status_reply requestId r
  end.

Definition step (w : world) (ev : event) : world := run (handle ev) w.

Definition run_events (evs : list event) (w : world) : world :=
  fold_left step evs w.

(** *** Which deliveries carry a result *)

(** The entry a decoded push frame installs, read off the branches of
    [ws.onmessage]. *)
Definition pushed_entry (requestId : string) (data : json) : option img :=
  match data with
  | JObj props =>
      if truthy (own_property "image_url" props) then
        Some (ImgUrl requestId (own_property "image_url" props))
      else if is_string "already_sent" (own_property "status" props) then None
      else if is_string "error" (own_property "status" props) then
        Some (ImgError requestId
                (or_else (own_property "message" props)
                   (Some (JStr "An error occurred during image generation"))))
      else None
  | _ => None
  end.

(** The entry a decoded status response installs on the poll path. *)
Definition polled_entry (reqId : string) (data : json) : option img :=
  match data with
  | JObj props =>
      if is_string "completed" (own_property "status" props)
         && truthy (own_property "result" props) then
        Some (ImgUrl reqId (own_property "result" props))
      else if is_string "error" (own_property "status" props) then
        Some (ImgError reqId
                (or_else (own_property "error" props)
                   (Some (JStr "Error generating image"))))
      else None
  | _ => None
  end.

(** [applies id e m]: the call [m] delivers the result [e] for job [id],
    over the push channel or as the reply to a poll. *)
Inductive applies : string → img → js unit → Prop :=
  | applies_push requestId ws event_data data e :
      event_data ≠ "pong" → event_data ≠ "server_ping" →
      JSON_parse event_data = Some data →
      pushed_entry requestId data = Some e →
      applies requestId e (onmessage requestId ws event_data)
  | applies_poll reqId status data e :
      ok status = true →
      polled_entry reqId data = Some e →
      applies reqId e (poll reqId (Response status (Some data))).

End App.

(** ** Predicates on the result list *)

(** The entries of the result list that belong to job [id]. *)
Definition entries_for (id : string) (l : list img) : list img :=
  filter (λ i, img_id i = id) l.

(** No job has two entries. *)
Definition at_most_one_result (l : list img) : Prop :=
  ∀ id, (length (entries_for id l) ≤ 1)%nat.

(** [m] keeps [P] true of the result list, whether it completes or throws. *)
Definition preserves (P : list img → Prop) {A} (m : js A) : Prop :=
  ∀ w, P (images w) → P (images (snd (m w))).

(** ** Predicates on worlds and events *)

(** [m] keeps [Q] true of the world, whether it completes or throws. *)
Definition keeps (Q : world → Prop) {A} (m : js A) : Prop :=
  ∀ w, Q w → Q (snd (m w)).

(** [settled w w']: the two lists of [w'] are those of [w] after zero or
    more deliveries, each of which installs one entry and deletes the loading
    entry of the same job. *)
Inductive settled : world → world → Prop :=
  | settled_same w w' :
      images w' = images w → loadingImages w' = loadingImages w →
      settled w w'
  | settled_delivery w w1 w' e :
      settled w w1 →
      images w' = upsert e (images w1) →
      loadingImages w' = forget (img_id e) (loadingImages w1) →
      settled w w'.

(** [w'] is [w] with at most one delivery, and that one for job [id]. *)
Definition delivery_for (id : string) (w w' : world) : Prop :=
  (images w' = images w ∧ loadingImages w' = loadingImages w)
  ∨ ∃ e, img_id e = id
         ∧ images w' = upsert e (images w)
         ∧ loadingImages w' = forget id (loadingImages w).

(** [m] completes from every world: no exception escapes it. *)
Definition completes (m : js unit) : Prop :=
  ∀ w, ∃ w', m w = (Done tt, w').

(** No job is loading and resolved at once. *)
Definition no_overlap (w : world) : Prop :=
  ∀ id, is_Some (loadingImages w !! id) → entries_for id (images w) = [].


(** The [close] calls among the logged calls, with the socket they close. *)
Definition closes (cs : list call) : list nat :=
  omap (λ c, match c with Close ws _ _ => Some ws | _ => None end) cs.

(** The socket a timer callback closes over. *)
Definition timer_ws (t : timer) : nat :=
  match t with
  | CloseAfterImage ws => ws
  | CloseAfterError ws => ws
  end.

Definition is_submission (ev : event) : bool :=
  match ev with
  | Generate _ _ => true
  | _ => false
  end.

(** ** Sample data for the examples *)

Module Sample.

Definition dq : string := String "034"%char EmptyString.

(** The text [{"image_url":"http://x/y.png"}]. *)
Definition payload_text : string :=
  "{" +:+ dq +:+ "image_url" +:+ dq +:+ ":" +:+ dq +:+ "http://x/y.png" +:+ dq +:+ "}".

Definition payload : json := JObj [("image_url", JStr "http://x/y.png")].

(** The text [{"status":"error","message":"boom"}]. *)
Definition error_text : string :=
  "{" +:+ dq +:+ "status" +:+ dq +:+ ":" +:+ dq +:+ "error" +:+ dq +:+ ","
      +:+ dq +:+ "message" +:+ dq +:+ ":" +:+ dq +:+ "boom" +:+ dq +:+ "}".

Definition error : json := JObj [("status", JStr "error"); ("message", JStr "boom")].

(** The text [{"status":"already_sent"}]. *)
Definition already_sent_text : string :=
  "{" +:+ dq +:+ "status" +:+ dq +:+ ":" +:+ dq +:+ "already_sent" +:+ dq +:+ "}".

Definition already_sent : json := JObj [("status", JStr "already_sent")].

(** [JSON.parse] on the three texts above; every other text used in the
    examples is not JSON. *)
Definition parse (text : string) : option json :=
  if String.eqb text payload_text then Some payload
  else if String.eqb text error_text then Some error
  else if String.eqb text already_sent_text then Some already_sent
  else None.

(** ToString on strings, [null], booleans, [undefined] and plain objects;
    the examples convert no number and no array. *)
Definition to_string (v : value) : string :=
  match v with
  | Some (JStr s) => s
  | Some JNull => "null"
  | Some (JBool true) => "true"
  | Some (JBool false) => "false"
  | None => "undefined"
  | Some (JObj _) => "[object Object]"
  | Some (JNum _) | Some (JArr _) => ""
  end.

Definition accepts (url : string) : bool := true.

(** Status responses of the pull channel. *)
Definition completed : json :=
  JObj [("status", JStr "completed"); ("result", JStr "http://x/y.png")].
Definition failed : json := JObj [("status", JStr "error"); ("error", JStr "OOM")].
Definition completed_empty : json :=
  JObj [("status", JStr "completed"); ("result", JStr "")].

(** A world with one open session for job [abc123], submitted at time 0. *)
Definition session : world :=
  {| images := [];
     loadingImages := {["abc123" := 0]};
     connectionStatus := "connected";
     sockets := [Socket "ws://127.0.0.1:8888/ws/12345/abc123" "abc123" OPEN];
     calls := [] |}.

(** The same session after a poll has already installed a failure for the
    job: no loading entry is left. *)
Definition resolved : world :=
  {| images := [ImgError "abc123" (Some (JStr "OOM"))];
     loadingImages := ∅;
     connectionStatus := "connected";
     sockets := [Socket "ws://127.0.0.1:8888/ws/12345/abc123" "abc123" OPEN];
     calls := [] |}.

(** Two jobs in flight, submitted at times 0 and 5000, none resolved. *)
Definition two_jobs : world :=
  {| images := [];
     loadingImages := {["abc123" := 0; "def456" := 5000]};
     connectionStatus := "connected";
     sockets := [Socket "ws://127.0.0.1:8888/ws/12345/abc123" "abc123" OPEN;
                 Socket "ws://127.0.0.1:8888/ws/12345/def456" "def456" OPEN];
     calls := [] |}.

(** A pull channel that answers every query with the completed result. *)
Definition replies (reqId : string) : fetch_result :=
  Response 200 (Some completed).

(** The body of a successful submission. *)
Definition generated : list (string * json) := [("request_id", JStr "abc123")].

(** A [WebSocket] constructor that rejects every URL. *)
Definition rejects (url : string) : bool := false.

End Sample.

(** * Properties *)

(** ** The result list under [upsert] *)

Example upsert_replaces :
  upsert (ImgError "a" (Some (JStr "boom")))
    [ImgUrl "a" (Some (JStr "u")); ImgUrl "b" (Some (JStr "v"))]
  = [ImgUrl "b" (Some (JStr "v")); ImgError "a" (Some (JStr "boom"))].
Proof. reflexivity. Qed.

Lemma entries_for_app id l1 l2 :
  entries_for id (l1 ++ l2) = entries_for id l1 ++ entries_for id l2.
Proof. apply filter_app. Qed.

Lemma entries_for_others id l :
  entries_for id (filter (λ i, img_id i ≠ id) l) = [].
Proof.
  unfold entries_for. induction l as [|i l IH]; [done|].
  rewrite filter_cons. case_decide as Hne; [|done].
  rewrite filter_cons. case_decide; [contradiction|done].
Qed.

Lemma entries_for_unrelated id id' l :
  id ≠ id' →
  entries_for id (filter (λ i, img_id i ≠ id') l) = entries_for id l.
Proof.
  intros Hne. unfold entries_for. induction l as [|i l IH]; [done|].
  rewrite !filter_cons. destruct (decide (img_id i = id)) as [Heq|Hni].
  - rewrite decide_True by congruence. rewrite filter_cons, decide_True by done.
    by rewrite IH.
  - case_decide; [|done]. rewrite filter_cons, decide_False by done. done.
Qed.

Lemma entries_for_upsert_same e l :
  entries_for (img_id e) (upsert e l) = [e].
Proof.
  unfold upsert. rewrite entries_for_app, entries_for_others.
  unfold entries_for. rewrite filter_cons, decide_True by done. done.
Qed.

Lemma entries_for_upsert_other id e l :
  id ≠ img_id e → entries_for id (upsert e l) = entries_for id l.
Proof.
  intros Hne. unfold upsert.
  rewrite entries_for_app, entries_for_unrelated by done.
  unfold entries_for at 2. rewrite filter_cons, decide_False by congruence.
  apply app_nil_r.
Qed.

Lemma at_most_one_upsert e l :
  at_most_one_result l → at_most_one_result (upsert e l).
Proof.
  intros Hl id. destruct (decide (id = img_id e)) as [->|Hne].
  - by rewrite entries_for_upsert_same.
  - rewrite entries_for_upsert_other by done. apply Hl.
Qed.

Lemma at_most_one_nil : at_most_one_result [].
Proof. intros id. simpl. lia. Qed.

(** ** What the primitives and the combinators preserve *)

Section Preservation.

Variable P : list img → Prop.

Lemma preserves_ret {A} (a : A) : preserves P (ret a).
Proof. by intros w. Qed.

Lemma preserves_skip : preserves P skip.
Proof. by intros w. Qed.

Lemma preserves_throw {A} e : preserves P (@throw A e).
Proof. by intros w. Qed.

Lemma preserves_bind {A B} (m : js A) (k : A → js B) :
  preserves P m → (∀ a, preserves P (k a)) → preserves P (bind m k).
Proof.
  intros Hm Hk w Hw. unfold bind. specialize (Hm w Hw).
  destruct (m w) as [[a|e] w']; simpl in *; [by apply Hk|done].
Qed.

Lemma preserves_try_catch {A} (body : js A) handler :
  preserves P body → (∀ e, preserves P (handler e)) →
  preserves P (try_catch body handler).
Proof.
  intros Hb Hh w Hw. unfold try_catch. specialize (Hb w Hw).
  destruct (body w) as [[a|e] w']; simpl in *; [done|by apply Hh].
Qed.

Lemma preserves_for_of {A} (xs : list A) body :
  (∀ x, preserves P (body x)) → preserves P (for_of xs body).
Proof.
  intros Hb. induction xs as [|x xs IH]; simpl.
  - apply preserves_ret.
  - apply preserves_bind; [apply Hb|by intros _].
Qed.

Lemma preserves_setImages f :
  (∀ l, P l → P (f l)) → preserves P (setImages f).
Proof. intros Hf w Hw. simpl. by apply Hf. Qed.

Lemma preserves_setLoadingImages f : preserves P (setLoadingImages f).
Proof. by intros w. Qed.

Lemma preserves_setConnectionStatus s : preserves P (setConnectionStatus s).
Proof. by intros w. Qed.

Lemma preserves_ws_readyState ws : preserves P (ws_readyState ws).
Proof. intros w Hw. unfold ws_readyState. by destruct (sockets w !! ws). Qed.

Lemma preserves_ws_send ws f : preserves P (ws_send ws f).
Proof.
  apply preserves_bind; [apply preserves_ws_readyState|].
  intros [] w Hw; done.
Qed.

Lemma preserves_ws_close ws code reason : preserves P (ws_close ws code reason).
Proof.
  apply preserves_bind; [apply preserves_ws_readyState|].
  intros [] w Hw; done.
Qed.

Lemma preserves_setTimeout t ms : preserves P (setTimeout t ms).
Proof. by intros w. Qed.

Lemma preserves_fetch r : preserves P (fetch r).
Proof. by intros w. Qed.

Lemma preserves_alert msg : preserves P (alert msg).
Proof. by intros w. Qed.

Lemma preserves_prop data k : preserves P (prop data k).
Proof. destruct data; (apply preserves_ret || apply preserves_throw). Qed.

Lemma preserves_transition st ws : preserves P (transition st ws).
Proof. by intros w. Qed.

Lemma preserves_on_socket ws handler :
  (∀ requestId, preserves P (handler requestId ws)) →
  preserves P (on_socket ws handler).
Proof.
  intros Hh w Hw. unfold on_socket.
  destruct (sockets w !! ws); [by apply Hh|done].
Qed.

End Preservation.

Create HintDb preserves.
#[export] Hint Resolve preserves_ret preserves_skip preserves_throw preserves_setLoadingImages
  preserves_setConnectionStatus preserves_ws_readyState preserves_ws_send
  preserves_ws_close preserves_setTimeout preserves_fetch preserves_alert
  preserves_prop preserves_transition : preserves.

(** Break a handler down along its binds, its [try] blocks and its branches. *)
Ltac preserves_step :=
  lazymatch goal with
  | |- preserves _ (bind _ _) => apply preserves_bind; [|intros ?]
  | |- preserves _ (try_catch _ _) => apply preserves_try_catch; [|intros ?]
  | |- preserves _ (for_of _ _) => apply preserves_for_of; intros ?
  | |- preserves _ (on_socket _ _) => apply preserves_on_socket; intros ?
  | |- preserves _ (setImages (upsert _)) =>
      apply preserves_setImages; intros ? ?; by apply at_most_one_upsert
  | |- preserves _ (match ?x with _ => _ end) => destruct x
  | |- _ => solve [auto with preserves]
  end.

Ltac preserves_handler := repeat preserves_step.

Section Invariant.

Variable JSON_parse : string → option json.
Variable ToString : value → string.
Variable WebSocket_accepts : string → bool.

Lemma poll_at_most_one reqId r : preserves at_most_one_result (poll reqId r).
Proof. unfold poll, js_and, status_is, prop_truthy. preserves_handler. Qed.

Lemma status_reply_at_most_one requestId r :
  preserves at_most_one_result (status_reply requestId r).
Proof. unfold status_reply, js_and, status_is, prop_truthy. preserves_handler. Qed.

Lemma onmessage_at_most_one requestId ws event_data :
  preserves at_most_one_result (onmessage JSON_parse requestId ws event_data).
Proof. unfold onmessage, js_and, status_is, prop_truthy. preserves_handler. Qed.

Lemma requestImageGeneration_at_most_one r now :
  preserves at_most_one_result
    (requestImageGeneration ToString WebSocket_accepts r now).
Proof.
  unfold requestImageGeneration, setupWebSocket, new_WebSocket.
  preserves_handler. by intros w.
Qed.

Lemma handle_at_most_one ev :
  preserves at_most_one_result (handle JSON_parse ToString WebSocket_accepts ev).
Proof.
  destruct ev; unfold handle.
  - apply requestImageGeneration_at_most_one.
  - intros w Hw. unfold checkStaleRequests.
    apply preserves_for_of; [|done]. intros reqId. apply poll_at_most_one.
  - apply poll_at_most_one.
  - unfold onopen. preserves_handler.
  - apply preserves_on_socket. intros requestId. apply onmessage_at_most_one.
  - unfold onerror. preserves_handler.
  - unfold onclose. preserves_handler.
  - unfold fire. preserves_handler.
  - apply status_reply_at_most_one.
Qed.

(** C3: every operation of the component (a submission, a poll tick or a
    single poll reply, each socket event with a payload, an error or an
    [already_sent] frame, the reply to the handoff query, a timer) keeps the
    result list free of duplicates: if no job has two entries before the
    event, no job has two entries after it. *)
Theorem C3_at_most_one_result_preserved (w : world) (ev : event) :
  at_most_one_result (images w) →
  at_most_one_result (images (step JSON_parse ToString WebSocket_accepts w ev)).
Proof. intros Hw. unfold step, run. by apply handle_at_most_one. Qed.

(** The invariant holds in every state the component can reach. *)
Corollary at_most_one_result_reachable (evs : list event) :
  at_most_one_result
    (images (run_events JSON_parse ToString WebSocket_accepts evs initial)).
Proof.
  unfold run_events.
  assert (∀ w, at_most_one_result (images w) →
               at_most_one_result
                 (images (fold_left (step JSON_parse ToString WebSocket_accepts) evs w)))
    as H.
  { induction evs as [|ev evs IH]; intros w Hw; simpl; [done|].
    apply IH. unfold step, run. by apply handle_at_most_one. }
  apply H, at_most_one_nil.
Qed.

End Invariant.

(** ** What a delivery does to the two lists *)

Lemma eqb_false_of_ne (a b : string) : a ≠ b → String.eqb a b = false.
Proof. intros H. by apply String.eqb_neq. Qed.

Ltac js_unfold :=
  cbv [run try_catch bind js_and status_is prop_truthy prop ret throw
       skip setImages setLoadingImages setConnectionStatus setTimeout fetch
       alert ws_send ws_close ws_readyState log with_sockets] in *.

Section Delivery.

Variable JSON_parse : string → option json.

Lemma pushed_entry_id requestId data e :
  pushed_entry requestId data = Some e → img_id e = requestId.
Proof.
  unfold pushed_entry. intros H.
  repeat case_match; simplify_eq; done.
Qed.

Lemma polled_entry_id reqId data e :
  polled_entry reqId data = Some e → img_id e = reqId.
Proof.
  unfold polled_entry. intros H.
  repeat case_match; simplify_eq; done.
Qed.

Lemma onmessage_pushed requestId ws event_data data e w :
  event_data ≠ "pong" → event_data ≠ "server_ping" →
  JSON_parse event_data = Some data →
  pushed_entry requestId data = Some e →
  images (run (onmessage JSON_parse requestId ws event_data) w) = upsert e (images w)
  ∧ loadingImages (run (onmessage JSON_parse requestId ws event_data) w)
    = forget requestId (loadingImages w).
Proof.
  intros Hpong Hping Hparse He.
  unfold onmessage.
  rewrite (eqb_false_of_ne _ _ Hpong), (eqb_false_of_ne _ _ Hping), Hparse.
  unfold pushed_entry in He.
  destruct data as [| | | | |props]; try discriminate.
  js_unfold. simpl.
  repeat case_match; simplify_eq; simpl; done.
Qed.

Lemma poll_polled reqId status data e w :
  ok status = true →
  polled_entry reqId data = Some e →
  images (run (poll reqId (Response status (Some data))) w) = upsert e (images w)
  ∧ loadingImages (run (poll reqId (Response status (Some data))) w)
    = forget reqId (loadingImages w).
Proof.
  intros Hok He. unfold poll. rewrite Hok.
  unfold polled_entry in He.
  destruct data as [| | | | |props]; try discriminate.
  js_unfold. simpl.
  destruct (is_string "completed" (own_property "status" props)),
    (truthy (own_property "result" props)),
    (is_string "error" (own_property "status" props));
    simpl in *; simplify_eq; done.
Qed.

Lemma applies_id id e m : applies JSON_parse id e m → img_id e = id.
Proof.
  destruct 1; eauto using pushed_entry_id, polled_entry_id.
Qed.

Lemma applies_effect id e m w :
  applies JSON_parse id e m →
  images (run m w) = upsert e (images w)
  ∧ loadingImages (run m w) = forget id (loadingImages w).
Proof.
  destruct 1; eauto using onmessage_pushed, poll_polled.
Qed.

(** C1 (amended): when job [id] has no loading entry, a call that delivers a
    result [e] for it leaves the loading set as it was and installs [e] in
    the result list: the entries of [id] are removed and [e] is appended. *)
Theorem C1_delivery_without_loading_entry id e m w :
  applies JSON_parse id e m →
  loadingImages w !! id = None →
  loadingImages (run m w) = loadingImages w
  ∧ images (run m w) = upsert e (images w).
Proof.
  intros Hm Hnone. destruct (applies_effect id e m w Hm) as [Hi Hl].
  split; [|done]. rewrite Hl. unfold forget. by apply delete_id.
Qed.

(** C2 (amended): two deliveries for the same job, each a success or a
    failure, leave exactly one entry for the job in the result list, and it
    is the entry of the second delivery. *)
Theorem C2_second_delivery_wins id e1 m1 e2 m2 w :
  applies JSON_parse id e1 m1 →
  applies JSON_parse id e2 m2 →
  entries_for id (images (run m2 (run m1 w))) = [e2].
Proof.
  intros H1 H2.
  destruct (applies_effect id e2 m2 (run m1 w) H2) as [-> _].
  rewrite <- (applies_id id e2 m2 H2). apply entries_for_upsert_same.
Qed.

End Delivery.

(** ** The push channel session *)

Section Session.

Variable JSON_parse : string → option json.

(** The handler of [message] events completes whatever it is given. *)
Lemma onmessage_never_throws requestId ws event_data w :
  ∃ w', onmessage JSON_parse requestId ws event_data w = (Done tt, w').
Proof.
  unfold onmessage, try_catch.
  match goal with |- context [match ?m w with _ => _ end] => destruct (m w) as [[[]|e] w'] end;
    eauto.
Qed.

(** C6: on a payload frame with an image URL, an open session first installs
    the success entry and removes the loading entry, then sends the
    acknowledgment [{type: "acknowledgment", request_id, status: "received"}],
    then registers a timer of 500 ms; nothing is closed by the handler
    itself.  When the timer fires it closes the socket with code 1000 if the
    socket is still open, and does nothing otherwise. *)
Theorem C6_payload_install_ack_then_close requestId ws event_data props s w :
  event_data ≠ "pong" → event_data ≠ "server_ping" →
  JSON_parse event_data = Some (JObj props) →
  truthy (own_property "image_url" props) = true →
  sockets w !! ws = Some s → readyState s = OPEN →
  onmessage JSON_parse requestId ws event_data w
  = (Done tt,
     {| images := upsert (ImgUrl requestId (own_property "image_url" props)) (images w);
        loadingImages := delete requestId (loadingImages w);
        connectionStatus := connectionStatus w;
        sockets := sockets w;
        calls := calls w ++
          [SetImages; SetLoadingImages;
           Send ws (Stringify (JObj [("type", JStr "acknowledgment");
                                     ("request_id", JStr requestId);
                                     ("status", JStr "received")]));
           SetTimeout (CloseAfterImage ws) 500] |})
  ∧ ∀ w1 s1, sockets w1 !! ws = Some s1 →
      fire (CloseAfterImage ws) w1
      = match readyState s1 with
        | OPEN =>
            (Done tt,
             {| images := images w1;
                loadingImages := loadingImages w1;
                connectionStatus := connectionStatus w1;
                sockets := alter (set_readyState CLOSING) ws (sockets w1);
                calls := calls w1 ++
                  [Close ws (Some 1000) (Some "Image received successfully")] |})
        | _ => (Done tt, w1)
        end.
Proof.
  intros Hpong Hping Hparse Hurl Hs Hopen. split.
  - unfold onmessage.
    rewrite (eqb_false_of_ne _ _ Hpong), (eqb_false_of_ne _ _ Hping), Hparse.
    js_unfold. simpl. rewrite Hurl, Hs, Hopen. simpl.
    by rewrite <- !app_assoc.
  - intros w1 s1 Hs1. unfold fire. js_unfold. rewrite Hs1.
    destruct (readyState s1) eqn:Hst; try done.
    rewrite Hs1, Hst. done.
Qed.

(** C7: a frame that is not a heartbeat and does not decode (the text is not
    JSON, or it is the JSON [null], whose fields cannot be read) is absorbed:
    the handler completes, and the world is the one it started from, so no
    list has changed and nothing was sent or closed. *)
Theorem C7_undecodable_frame_ignored requestId ws event_data w :
  event_data ≠ "pong" → event_data ≠ "server_ping" →
  JSON_parse event_data = None ∨ JSON_parse event_data = Some JNull →
  onmessage JSON_parse requestId ws event_data w = (Done tt, w).
Proof.
  intros Hpong Hping Hparse. unfold onmessage.
  rewrite (eqb_false_of_ne _ _ Hpong), (eqb_false_of_ne _ _ Hping).
  by destruct Hparse as [-> | ->].
Qed.

(** C9: an open session answers a heartbeat frame with the raw text [pong]
    on the same socket, and changes nothing else. *)
Theorem C9_heartbeat_answered requestId ws event_data s w :
  event_data = "pong" ∨ event_data = "server_ping" →
  sockets w !! ws = Some s → readyState s = OPEN →
  onmessage JSON_parse requestId ws event_data w
  = (Done tt,
     {| images := images w;
        loadingImages := loadingImages w;
        connectionStatus := connectionStatus w;
        sockets := sockets w;
        calls := calls w ++ [Send ws (Text "pong")] |}).
Proof.
  intros Hbeat Hs Hopen. unfold onmessage.
  assert (String.eqb event_data "pong" || String.eqb event_data "server_ping" = true)
    as -> by (by destruct Hbeat as [-> | ->]).
  js_unfold. by rewrite Hs, Hopen.
Qed.

(** On [already_sent] an open session issues one status query for its job
    and closes the socket at once. *)
Lemma onmessage_already_sent requestId ws event_data props s w :
  event_data ≠ "pong" → event_data ≠ "server_ping" →
  JSON_parse event_data = Some (JObj props) →
  truthy (own_property "image_url" props) = false →
  own_property "status" props = Some (JStr "already_sent") →
  sockets w !! ws = Some s → readyState s = OPEN →
  onmessage JSON_parse requestId ws event_data w
  = (Done tt,
     {| images := images w;
        loadingImages := loadingImages w;
        connectionStatus := connectionStatus w;
        sockets := alter (set_readyState CLOSING) ws (sockets w);
        calls := calls w ++ [Fetch (GET (status_url requestId)); Close ws None None] |}).
Proof.
  intros Hpong Hping Hparse Hurl Hst Hs Hopen. unfold onmessage.
  rewrite (eqb_false_of_ne _ _ Hpong), (eqb_false_of_ne _ _ Hping), Hparse.
  js_unfold. simpl. rewrite Hurl, Hst. simpl. rewrite Hs, Hopen. simpl.
  by rewrite <- !app_assoc.
Qed.

End Session.

(** A [completed] reply to the handoff query installs the success entry and
    removes the loading entry. *)
Lemma status_reply_completed requestId status props w :
  own_property "status" props = Some (JStr "completed") →
  truthy (own_property "result" props) = true →
  status_reply requestId (Response status (Some (JObj props))) w
  = (Done tt,
     {| images := upsert (ImgUrl requestId (own_property "result" props)) (images w);
        loadingImages := delete requestId (loadingImages w);
        connectionStatus := connectionStatus w;
        sockets := sockets w;
        calls := calls w ++ [SetImages; SetLoadingImages] |}).
Proof.
  intros Hst Hres. unfold status_reply. js_unfold. simpl.
  rewrite Hst, Hres. simpl. by rewrite <- !app_assoc.
Qed.

(** An [error] reply to the handoff query is dropped, whatever it says. *)
Lemma status_reply_error requestId status props w :
  own_property "status" props = Some (JStr "error") →
  status_reply requestId (Response status (Some (JObj props))) w = (Done tt, w).
Proof.
  intros Hst. unfold status_reply. js_unfold. simpl. by rewrite Hst.
Qed.

(** ** The poller *)

Lemma staleRequestIds_spec now (loadingImages : gmap string Z) reqId :
  reqId ∈ staleRequestIds now loadingImages
  ↔ ∃ startedAt, loadingImages !! reqId = Some startedAt ∧ now - startedAt > 12000.
Proof.
  unfold staleRequestIds. rewrite list_elem_of_fmap. split.
  - intros [[k ts] [-> Hin]]. apply list_elem_of_filter in Hin as [Hold Hin].
    apply elem_of_map_to_list in Hin. eauto.
  - intros (ts & Hts & Hold). exists (reqId, ts). split; [done|].
    apply list_elem_of_filter. split; [done|]. by apply elem_of_map_to_list.
Qed.

Lemma staleRequestIds_NoDup now (loadingImages : gmap string Z) :
  NoDup (staleRequestIds now loadingImages).
Proof.
  unfold staleRequestIds.
  eapply sublist_NoDup; [apply (NoDup_fst_map_to_list loadingImages)|].
  apply fmap_sublist, sublist_filter.
Qed.

(** C5: a poll tick at time [now] selects exactly the jobs whose loading
    entry is older than 12000 ms, each once.  A job whose age is at most
    12000 ms is not selected; a job older than that is selected, and is
    selected again by every later tick that still finds its entry. *)
Theorem C5_stale_selection (now : Z) (loadingImages : gmap string Z) :
  (∀ reqId,
     reqId ∈ staleRequestIds now loadingImages
     ↔ ∃ startedAt, loadingImages !! reqId = Some startedAt ∧ now - startedAt > 12000)
  ∧ NoDup (staleRequestIds now loadingImages)
  ∧ (∀ reqId startedAt,
       loadingImages !! reqId = Some startedAt → now - startedAt ≤ 12000 →
       reqId ∉ staleRequestIds now loadingImages)
  ∧ (∀ reqId startedAt now' (loadingImages' : gmap string Z),
       loadingImages !! reqId = Some startedAt → now - startedAt > 12000 →
       now ≤ now' → loadingImages' !! reqId = Some startedAt →
       reqId ∈ staleRequestIds now loadingImages
       ∧ reqId ∈ staleRequestIds now' loadingImages').
Proof.
  split; [|split; [|split]].
  - intros reqId. apply staleRequestIds_spec.
  - apply staleRequestIds_NoDup.
  - intros reqId ts Hts Hyoung Hin.
    apply staleRequestIds_spec in Hin as (ts' & Hts' & Hold).
    simplify_eq. lia.
  - intros reqId ts now' loading' Hts Hold Hlater Hts'. split.
    + apply staleRequestIds_spec. eauto.
    + apply staleRequestIds_spec. exists ts. split; [done|lia].
Qed.

Example stale_after_threshold :
  staleRequestIds 12000 {["abc123" := 0]} = []
  ∧ staleRequestIds 12001 {["abc123" := 0]} = ["abc123"]
  ∧ staleRequestIds 13000 {["abc123" := 0; "def456" := 5000]} = ["abc123"].
Proof. repeat split; by vm_compute. Qed.

(** One tick is the loop body run on each selected job in turn. *)
Lemma checkStaleRequests_unfold now responses w :
  checkStaleRequests now responses w
  = for_of (staleRequestIds now (loadingImages w))
      (λ reqId, poll reqId (responses reqId)) w.
Proof. reflexivity. Qed.

(** C10: a status response that says [completed] but whose [result] is
    missing or empty (or otherwise falsy) is neither a success nor an error.
    The poll path only logs its query and the handoff path does nothing: the
    result list and the loading set stay as they are, so a job the tick
    selected is selected again by any later tick. *)
Theorem C10_completed_without_result id status props w :
  own_property "status" props = Some (JStr "completed") →
  truthy (own_property "result" props) = false →
  poll id (Response status (Some (JObj props))) w
  = (Done tt,
     {| images := images w;
        loadingImages := loadingImages w;
        connectionStatus := connectionStatus w;
        sockets := sockets w;
        calls := calls w ++ [Fetch (GET (status_url id))] |})
  ∧ status_reply id (Response status (Some (JObj props))) w = (Done tt, w)
  ∧ ∀ now now',
      now ≤ now' →
      id ∈ staleRequestIds now (loadingImages w) →
      id ∈ staleRequestIds now'
             (loadingImages (run (poll id (Response status (Some (JObj props)))) w)).
Proof.
  intros Hst Hres.
  assert (poll id (Response status (Some (JObj props))) w
          = (Done tt, log (Fetch (GET (status_url id))) w)) as Hpoll.
  { unfold poll. js_unfold. simpl. rewrite Hst, Hres. simpl.
    by destruct (ok status). }
  split; [exact Hpoll|]. split.
  - unfold status_reply. js_unfold. simpl. by rewrite Hst, Hres.
  - intros now now' Hle Hin. unfold run. rewrite Hpoll. simpl.
    apply staleRequestIds_spec in Hin as (ts & Hts & Hold).
    apply staleRequestIds_spec. exists ts. split; [done|lia].
Qed.

(** ** The submitter *)

Section Submit.

Variable ToString : value → string.
Variable WebSocket_accepts : string → bool.

(** C8: when the submission request fails (the [fetch] rejects, or the
    response is not 2xx) the user gets the alert and nothing else happens:
    the loading set, the result list and the sockets are as before. *)
Theorem C8_failed_submission_creates_nothing r now w :
  r = Rejected ∨ (∃ status body, r = Response status body ∧ ok status = false) →
  requestImageGeneration ToString WebSocket_accepts r now w
  = (Done tt,
     {| images := images w;
        loadingImages := loadingImages w;
        connectionStatus := connectionStatus w;
        sockets := sockets w;
        calls := calls w ++
          [Fetch (POST "http://127.0.0.1:8888/generate" (JObj [("user_id", JStr "12345")]));
           Alert "Failed to request image generation. Please try again."] |}).
Proof.
  intros [-> | (status & body & -> & Hok)]; unfold requestImageGeneration;
    js_unfold; simpl; rewrite ?Hok; simpl; by rewrite <- !app_assoc.
Qed.

End Submit.

(** ** The handoff on [already_sent] *)

(** C4: on [already_sent] the session issues one status query, and a
    [completed] reply installs the success entry; but an [error] reply is not
    read the way the poller reads it.  For job [abc123], still loading, the
    reply [{status: "error", error: "OOM"}] leaves the world untouched on the
    handoff path, while the loop body of the poller installs the failure and
    removes the loading entry for the same reply. *)
Theorem C4_handoff_drops_error_reply :
  onmessage Sample.parse "abc123" 0%nat Sample.already_sent_text Sample.session
  = (Done tt,
     {| images := [];
        loadingImages := {["abc123" := 0]};
        connectionStatus := "connected";
        sockets := [Socket "ws://127.0.0.1:8888/ws/12345/abc123" "abc123" CLOSING];
        calls := [Fetch (GET "http://127.0.0.1:8888/status/12345/abc123");
                  Close 0%nat None None] |})
  ∧ status_reply "abc123" (Response 200 (Some Sample.failed)) Sample.session
    = (Done tt, Sample.session)
  ∧ images (run (poll "abc123" (Response 200 (Some Sample.failed))) Sample.session)
    = [ImgError "abc123" (Some (JStr "OOM"))]
  ∧ loadingImages (run (poll "abc123" (Response 200 (Some Sample.failed))) Sample.session)
    = ∅.
Proof. repeat split; by vm_compute. Qed.

(** ** Instances on the sample data *)

Lemma sample_payload_not_heartbeat :
  Sample.payload_text ≠ "pong" ∧ Sample.payload_text ≠ "server_ping".
Proof. split; by vm_compute. Qed.

Lemma sample_error_not_heartbeat :
  Sample.error_text ≠ "pong" ∧ Sample.error_text ≠ "server_ping".
Proof. split; by vm_compute. Qed.

Lemma sample_push_payload :
  applies Sample.parse "abc123" (ImgUrl "abc123" (Some (JStr "http://x/y.png")))
    (onmessage Sample.parse "abc123" 0%nat Sample.payload_text).
Proof.
  apply applies_push with (data := Sample.payload);
    [apply sample_payload_not_heartbeat..|reflexivity|reflexivity].
Qed.

Lemma sample_push_error :
  applies Sample.parse "abc123" (ImgError "abc123" (Some (JStr "boom")))
    (onmessage Sample.parse "abc123" 0%nat Sample.error_text).
Proof.
  apply applies_push with (data := Sample.error);
    [apply sample_error_not_heartbeat..|reflexivity|reflexivity].
Qed.

Lemma sample_poll_completed :
  applies Sample.parse "abc123" (ImgUrl "abc123" (Some (JStr "http://x/y.png")))
    (poll "abc123" (Response 200 (Some Sample.completed))).
Proof. apply applies_poll; reflexivity. Qed.

(** C1 as stated fails: job [abc123] has no loading entry (a poll already
    installed its failure), yet the payload frame that arrives afterwards,
    and likewise a second [completed] poll reply, changes the result list. *)
Lemma C1_counterexample :
  applies Sample.parse "abc123" (ImgUrl "abc123" (Some (JStr "http://x/y.png")))
    (onmessage Sample.parse "abc123" 0%nat Sample.payload_text)
  ∧ applies Sample.parse "abc123" (ImgUrl "abc123" (Some (JStr "http://x/y.png")))
      (poll "abc123" (Response 200 (Some Sample.completed)))
  ∧ loadingImages Sample.resolved !! "abc123" = None
  ∧ images (run (onmessage Sample.parse "abc123" 0%nat Sample.payload_text) Sample.resolved)
    ≠ images Sample.resolved
  ∧ images (run (poll "abc123" (Response 200 (Some Sample.completed))) Sample.resolved)
    ≠ images Sample.resolved.
Proof.
  split; [apply sample_push_payload|]. split; [apply sample_poll_completed|].
  split; [reflexivity|]. split; by vm_compute.
Qed.

(** The amended C1 on the same frame and world. *)
Lemma C1_witness :
  loadingImages
    (run (onmessage Sample.parse "abc123" 0%nat Sample.payload_text) Sample.resolved)
  = loadingImages Sample.resolved
  ∧ images
      (run (onmessage Sample.parse "abc123" 0%nat Sample.payload_text) Sample.resolved)
    = upsert (ImgUrl "abc123" (Some (JStr "http://x/y.png"))) (images Sample.resolved).
Proof.
  apply (C1_delivery_without_loading_entry Sample.parse "abc123").
  - apply sample_push_payload.
  - reflexivity.
Defined.

(** C2 as stated fails: a payload frame followed by an error frame for the
    same job leaves the failure, not the success that came first. *)
Lemma C2_counterexample :
  applies Sample.parse "abc123" (ImgUrl "abc123" (Some (JStr "http://x/y.png")))
    (onmessage Sample.parse "abc123" 0%nat Sample.payload_text)
  ∧ applies Sample.parse "abc123" (ImgError "abc123" (Some (JStr "boom")))
      (onmessage Sample.parse "abc123" 0%nat Sample.error_text)
  ∧ entries_for "abc123"
      (images
         (run (onmessage Sample.parse "abc123" 0%nat Sample.error_text)
            (run (onmessage Sample.parse "abc123" 0%nat Sample.payload_text)
               Sample.session)))
    ≠ [ImgUrl "abc123" (Some (JStr "http://x/y.png"))].
Proof.
  split; [apply sample_push_payload|]. split; [apply sample_push_error|].
  by vm_compute.
Qed.

(** The amended C2 on the same two frames. *)
Lemma C2_witness :
  entries_for "abc123"
    (images
       (run (onmessage Sample.parse "abc123" 0%nat Sample.error_text)
          (run (onmessage Sample.parse "abc123" 0%nat Sample.payload_text)
             Sample.session)))
  = [ImgError "abc123" (Some (JStr "boom"))].
Proof.
  apply (C2_second_delivery_wins Sample.parse "abc123"
           (ImgUrl "abc123" (Some (JStr "http://x/y.png")))).
  - apply sample_push_payload.
  - apply sample_push_error.
Defined.

(** C3 on a payload frame that reaches a job a poll has already failed. *)
Lemma C3_witness :
  at_most_one_result (images Sample.resolved)
  ∧ at_most_one_result
      (images (step Sample.parse Sample.to_string Sample.accepts Sample.resolved
                 (WsMessage 0 Sample.payload_text))).
Proof.
  assert (at_most_one_result (images Sample.resolved)) as H.
  { apply (at_most_one_upsert (ImgError "abc123" (Some (JStr "OOM"))) []).
    apply at_most_one_nil. }
  split; [exact H|].
  apply (C3_at_most_one_result_preserved Sample.parse Sample.to_string Sample.accepts).
  exact H.
Defined.

(** C6 on the payload frame of the sample session. *)
Lemma C6_witness :
  calls (snd (onmessage Sample.parse "abc123" 0%nat Sample.payload_text Sample.session))
  = [SetImages; SetLoadingImages;
     Send 0%nat (Stringify (JObj [("type", JStr "acknowledgment");
                                  ("request_id", JStr "abc123");
                                  ("status", JStr "received")]));
     SetTimeout (CloseAfterImage 0%nat) 500].
Proof.
  destruct (C6_payload_install_ack_then_close Sample.parse "abc123" 0%nat
              Sample.payload_text [("image_url", JStr "http://x/y.png")]
              (Socket "ws://127.0.0.1:8888/ws/12345/abc123" "abc123" OPEN)
              Sample.session) as [-> _].
  - apply sample_payload_not_heartbeat.
  - apply sample_payload_not_heartbeat.
  - reflexivity.
  - reflexivity.
  - reflexivity.
  - reflexivity.
  - reflexivity.
Defined.

(** C7 on a text that is not JSON. *)
Lemma C7_witness :
  onmessage Sample.parse "abc123" 0%nat "not json" Sample.session
  = (Done tt, Sample.session).
Proof.
  apply C7_undecodable_frame_ignored.
  - by vm_compute.
  - by vm_compute.
  - left. reflexivity.
Defined.

(** C8 on a response with status 500. *)
Lemma C8_witness :
  requestImageGeneration Sample.to_string Sample.accepts (Response 500 None) 0 initial
  = (Done tt,
     {| images := [];
        loadingImages := ∅;
        connectionStatus := "disconnected";
        sockets := [];
        calls :=
          [Fetch (POST "http://127.0.0.1:8888/generate" (JObj [("user_id", JStr "12345")]));
           Alert "Failed to request image generation. Please try again."] |}).
Proof.
  apply (C8_failed_submission_creates_nothing Sample.to_string Sample.accepts
           (Response 500 None) 0 initial).
  right. exists 500, None. split; reflexivity.
Defined.

(** C9 on the server's ping. *)
Lemma C9_witness :
  onmessage Sample.parse "abc123" 0%nat "server_ping" Sample.session
  = (Done tt,
     {| images := [];
        loadingImages := {["abc123" := 0]};
        connectionStatus := "connected";
        sockets := [Socket "ws://127.0.0.1:8888/ws/12345/abc123" "abc123" OPEN];
        calls := [Send 0%nat (Text "pong")] |}).
Proof.
  apply (C9_heartbeat_answered Sample.parse "abc123" 0%nat "server_ping"
           (Socket "ws://127.0.0.1:8888/ws/12345/abc123" "abc123" OPEN)
           Sample.session).
  - right. reflexivity.
  - reflexivity.
  - reflexivity.
Defined.

(** C10 on [{status: "completed", result: ""}]. *)
Lemma C10_witness :
  poll "abc123" (Response 200 (Some Sample.completed_empty)) Sample.session
  = (Done tt,
     {| images := [];
        loadingImages := {["abc123" := 0]};
        connectionStatus := "connected";
        sockets := [Socket "ws://127.0.0.1:8888/ws/12345/abc123" "abc123" OPEN];
        calls := [Fetch (GET (status_url "abc123"))] |})
  ∧ status_reply "abc123" (Response 200 (Some Sample.completed_empty)) Sample.session
    = (Done tt, Sample.session).
Proof.
  destruct (C10_completed_without_result "abc123" 200
              [("status", JStr "completed"); ("result", JStr "")] Sample.session)
    as (Hpoll & Hreply & _).
  - reflexivity.
  - reflexivity.
  - split; [exact Hpoll|exact Hreply].
Defined.

(** * Further properties of the component *)

(** ** Invariants of the world *)

Section Keeps.

Variable Q : world → Prop.

(** [Q] does not read the log of calls, nor the sockets. *)
Hypothesis Q_log : ∀ c w, Q w → Q (log c w).
Hypothesis Q_sockets : ∀ ss w, Q w → Q (with_sockets ss w).

Lemma keeps_ret {A} (a : A) : keeps Q (ret a).
Proof. by intros w. Qed.

Lemma keeps_skip : keeps Q skip.
Proof. by intros w. Qed.

Lemma keeps_throw {A} e : keeps Q (@throw A e).
Proof. by intros w. Qed.

Lemma keeps_bind {A B} (m : js A) (k : A → js B) :
  keeps Q m → (∀ a, keeps Q (k a)) → keeps Q (bind m k).
Proof.
  intros Hm Hk w Hw. unfold bind. specialize (Hm w Hw).
  destruct (m w) as [[a|e] w']; simpl in *; [by apply Hk|done].
Qed.

Lemma keeps_try_catch {A} (body : js A) handler :
  keeps Q body → (∀ e, keeps Q (handler e)) → keeps Q (try_catch body handler).
Proof.
  intros Hb Hh w Hw. unfold try_catch. specialize (Hb w Hw).
  destruct (body w) as [[a|e] w']; simpl in *; [done|by apply Hh].
Qed.

Lemma keeps_for_of {A} (xs : list A) body :
  (∀ x, keeps Q (body x)) → keeps Q (for_of xs body).
Proof.
  intros Hb. induction xs as [|x xs IH]; simpl.
  - apply keeps_ret.
  - apply keeps_bind; [apply Hb|by intros _].
Qed.

Lemma keeps_ws_readyState ws : keeps Q (ws_readyState ws).
Proof. intros w Hw. unfold ws_readyState. by destruct (sockets w !! ws). Qed.

Lemma keeps_ws_send ws f : keeps Q (ws_send ws f).
Proof.
  apply keeps_bind; [apply keeps_ws_readyState|].
  intros [] w Hw; simpl; auto.
Qed.

Lemma keeps_ws_close ws code reason : keeps Q (ws_close ws code reason).
Proof.
  apply keeps_bind; [apply keeps_ws_readyState|].
  intros [] w Hw; simpl; auto.
Qed.

Lemma keeps_setTimeout t ms : keeps Q (setTimeout t ms).
Proof. intros w Hw. simpl. auto. Qed.

Lemma keeps_fetch r : keeps Q (fetch r).
Proof. intros w Hw. simpl. auto. Qed.

Lemma keeps_alert msg : keeps Q (alert msg).
Proof. intros w Hw. simpl. auto. Qed.

Lemma keeps_prop data k : keeps Q (prop data k).
Proof. destruct data; (apply keeps_ret || apply keeps_throw). Qed.

Lemma keeps_transition st ws : keeps Q (transition st ws).
Proof. intros w Hw. simpl. auto. Qed.

Lemma keeps_new_WebSocket accepts url requestId :
  keeps Q (new_WebSocket accepts url requestId).
Proof.
  unfold new_WebSocket. destruct (accepts url); [|apply keeps_throw].
  intros w Hw. simpl. auto.
Qed.

Lemma keeps_on_socket ws handler :
  (∀ requestId, keeps Q (handler requestId ws)) → keeps Q (on_socket ws handler).
Proof.
  intros Hh w Hw. unfold on_socket.
  destruct (sockets w !! ws); [by apply Hh|done].
Qed.

End Keeps.

(** Break a handler down as [preserves_step] does, closing the leaves with
    the facts at hand. *)
Ltac keeps_step :=
  lazymatch goal with
  | |- keeps _ (bind _ _) => apply keeps_bind; [|intros ?]
  | |- keeps _ (try_catch _ _) => apply keeps_try_catch; [|intros ?]
  | |- keeps _ (for_of _ _) => apply keeps_for_of; intros ?
  | |- keeps _ (on_socket _ _) => apply keeps_on_socket; intros ?
  | |- keeps _ (match ?x with _ => _ end) => destruct x
  | |- _ =>
      solve [ eauto using keeps_ret, keeps_skip, keeps_throw, keeps_ws_readyState,
                keeps_ws_send, keeps_ws_close, keeps_setTimeout, keeps_fetch,
                keeps_alert, keeps_prop, keeps_transition, keeps_new_WebSocket ]
  end.

Ltac keeps_handler := repeat keeps_step.

Section HandlersKeep.

Variable JSON_parse : string → option json.
Variable ToString : value → string.
Variable WebSocket_accepts : string → bool.

Variable Q : world → Prop.
Hypothesis Q_log : ∀ c w, Q w → Q (log c w).
Hypothesis Q_sockets : ∀ ss w, Q w → Q (with_sockets ss w).

(** What the handlers do to the state: they install entries, delete loading
    entries, and set one of three connection statuses. *)
Hypothesis Q_upsert : ∀ e, keeps Q (setImages (upsert e)).
Hypothesis Q_forget : ∀ id, keeps Q (setLoadingImages (forget id)).
Hypothesis Q_status :
  ∀ s, s ∈ ["connected"; "error"; "disconnected"] → keeps Q (setConnectionStatus s).

Lemma poll_keeps reqId r : keeps Q (poll reqId r).
Proof. unfold poll, js_and, status_is, prop_truthy. keeps_handler. Qed.

Lemma checkStaleRequests_keeps now responses :
  keeps Q (checkStaleRequests now responses).
Proof.
  intros w Hw. unfold checkStaleRequests.
  apply keeps_for_of; [|done]. intros reqId. apply poll_keeps.
Qed.

Lemma status_reply_keeps requestId r : keeps Q (status_reply requestId r).
Proof. unfold status_reply, js_and, status_is, prop_truthy. keeps_handler. Qed.

Lemma onmessage_keeps requestId ws event_data :
  keeps Q (onmessage JSON_parse requestId ws event_data).
Proof. unfold onmessage, js_and, status_is, prop_truthy. keeps_handler. Qed.

Lemma onopen_keeps requestId ws : keeps Q (onopen requestId ws).
Proof.
  unfold onopen. keeps_handler. apply Q_status. set_solver.
Qed.

Lemma onerror_keeps requestId ws : keeps Q (onerror requestId ws).
Proof. unfold onerror. apply Q_status. set_solver. Qed.

Lemma onclose_keeps requestId ws : keeps Q (onclose requestId ws).
Proof. unfold onclose. apply Q_status. set_solver. Qed.

Lemma fire_keeps t : keeps Q (fire t).
Proof. unfold fire. keeps_handler. Qed.

(** Every event but a submission keeps [Q]. *)
Lemma handle_keeps ev :
  is_submission ev = false →
  keeps Q (handle JSON_parse ToString WebSocket_accepts ev).
Proof.
  destruct ev; intros Hev; try discriminate; unfold handle.
  - apply checkStaleRequests_keeps.
  - apply poll_keeps.
  - apply keeps_bind; [by apply keeps_transition|]. intros _.
    apply keeps_on_socket. intros requestId. apply onopen_keeps.
  - apply keeps_on_socket. intros requestId. apply onmessage_keeps.
  - apply keeps_on_socket. intros requestId. apply onerror_keeps.
  - apply keeps_bind; [by apply keeps_transition|]. intros _.
    apply keeps_on_socket. intros requestId. apply onclose_keeps.
  - apply fire_keeps.
  - apply status_reply_keeps.
Qed.

(** A submission keeps [Q] as well when adding a loading entry does. *)
Lemma requestImageGeneration_keeps r now :
  (∀ id, keeps Q (setLoadingImages (remember id now))) →
  keeps Q (requestImageGeneration ToString WebSocket_accepts r now).
Proof.
  intros Hremember. unfold requestImageGeneration, setupWebSocket. keeps_handler.
Qed.

End HandlersKeep.

(** ** One handler, one job *)

Section Effects.

Variable JSON_parse : string → option json.
Variable ToString : value → string.
Variable WebSocket_accepts : string → bool.

Ltac effect_cases :=
  js_unfold; simpl; repeat case_match; simplify_eq; simpl;
  first [ by left | right; eexists; by repeat split ].

Lemma poll_delivery_for reqId r w :
  delivery_for reqId w (run (poll reqId r) w).
Proof. unfold delivery_for, poll. effect_cases. Qed.

Lemma status_reply_delivery_for requestId r w :
  delivery_for requestId w (run (status_reply requestId r) w).
Proof. unfold delivery_for, status_reply. effect_cases. Qed.

Lemma onmessage_delivery_for requestId ws event_data w :
  delivery_for requestId w (run (onmessage JSON_parse requestId ws event_data) w).
Proof. unfold delivery_for, onmessage. effect_cases. Qed.

Lemma delivery_for_other id id' w w' :
  delivery_for id w w' → id' ≠ id →
  loadingImages w' !! id' = loadingImages w !! id'
  ∧ entries_for id' (images w') = entries_for id' (images w).
Proof.
  intros [[-> ->] | (e & He & -> & ->)] Hne; [done|]. split.
  - unfold forget. by apply lookup_delete_ne.
  - apply entries_for_upsert_other. congruence.
Qed.

Lemma delivery_for_settled id w w' : delivery_for id w w' → settled w w'.
Proof.
  intros [[Hi Hl] | (e & He & Hi & Hl)].
  - by apply settled_same.
  - apply settled_delivery with (w1 := w) (e := e); [by apply settled_same|done|].
    by rewrite He.
Qed.

Lemma settled_trans w1 w2 w3 : settled w1 w2 → settled w2 w3 → settled w1 w3.
Proof.
  intros H12 H23. induction H23 as [w2 w3 Hi Hl | w2 w w3 e _ IH Hi Hl].
  - destruct H12 as [w1 w2 Hi' Hl' | w1 w w2 e H Hi' Hl'].
    + apply settled_same; congruence.
    + apply settled_delivery with (w1 := w) (e := e); congruence.
  - apply settled_delivery with (w1 := w) (e := e); auto.
Qed.

Lemma for_of_settled {A} (xs : list A) (body : A → js unit) :
  (∀ x w, settled w (run (body x) w)) →
  ∀ w, settled w (run (for_of xs body) w).
Proof.
  intros Hb. induction xs as [|x xs IH]; intros w.
  - by apply settled_same.
  - simpl. unfold run, bind. specialize (Hb x w). unfold run in Hb.
    destruct (body x w) as [[[]|e] w1]; simpl in *; [|done].
    eapply settled_trans; [exact Hb|apply IH].
Qed.

End Effects.

(** ** What the events do to the two lists *)

Section Lists.

Variable JSON_parse : string → option json.
Variable ToString : value → string.
Variable WebSocket_accepts : string → bool.

Lemma checkStaleRequests_settled now responses w :
  settled w (run (checkStaleRequests now responses) w).
Proof.
  unfold checkStaleRequests, run.
  apply (for_of_settled _ (λ reqId, poll reqId (responses reqId))).
  intros reqId w1. eapply delivery_for_settled, poll_delivery_for.
Qed.

Lemma step_settled (ev : event) (w : world) :
  is_submission ev = false →
  settled w (step JSON_parse ToString WebSocket_accepts w ev).
Proof.
  destruct ev; intros Hev; try discriminate; unfold step, handle.
  - apply checkStaleRequests_settled.
  - eapply delivery_for_settled, poll_delivery_for.
  - apply settled_same;
      unfold run, on_socket, transition, onopen; js_unfold; simpl;
      repeat case_match; simplify_eq; done.
  - unfold run, on_socket. destruct (sockets w !! ws) as [s|].
    + eapply delivery_for_settled, (onmessage_delivery_for JSON_parse).
    + by apply settled_same.
  - apply settled_same;
      unfold run, on_socket, onerror; js_unfold; simpl;
      repeat case_match; simplify_eq; done.
  - apply settled_same;
      unfold run, on_socket, transition, onclose; js_unfold; simpl;
      repeat case_match; simplify_eq; done.
  - apply settled_same;
      unfold run, fire; js_unfold; simpl;
      repeat case_match; simplify_eq; done.
  - eapply delivery_for_settled, status_reply_delivery_for.
Qed.

(** X2: Every event but a submission changes the result list and the loading
    set only by deliveries: each installs one entry and deletes the loading
    entry of that entry's job.  Nothing else is ever written to either
    list. *)
Theorem non_submission_settles (ev : event) (w : world) :
  is_submission ev = false →
  settled w (step JSON_parse ToString WebSocket_accepts w ev).
Proof. apply step_settled. Qed.

Lemma settled_no_overlap w w' : settled w w' → no_overlap w → no_overlap w'.
Proof.
  induction 1 as [w w' Hi Hl | w w1 w' e _ IH Hi Hl]; intros Hw id Hid.
  - rewrite Hi. apply Hw. by rewrite <- Hl.
  - rewrite Hl in Hid. unfold forget in Hid.
    destruct Hid as [ts Hts]. apply lookup_delete_Some in Hts as [Hne Hts].
    rewrite Hi, entries_for_upsert_other by done. apply (IH Hw). eauto.
Qed.

Lemma settled_loading_shrinks w w' id ts :
  settled w w' → loadingImages w' !! id = Some ts → loadingImages w !! id = Some ts.
Proof.
  induction 1 as [w w' Hi Hl | w w1 w' e _ IH Hi Hl]; intros Hts.
  - by rewrite <- Hl.
  - apply IH. rewrite Hl in Hts. unfold forget in Hts.
    by apply lookup_delete_Some in Hts as [_ Hts].
Qed.

(** X3: Outside submissions no job is ever loading and resolved at once: if no
    job has both a loading entry and a result entry before an event, none
    has both after it. *)
Theorem no_overlap_preserved (ev : event) (w : world) :
  is_submission ev = false →
  no_overlap w →
  no_overlap (step JSON_parse ToString WebSocket_accepts w ev).
Proof.
  intros Hev. apply settled_no_overlap. by apply step_settled.
Qed.

(** X4: Only a submission adds to the loading set: a loading entry found after
    any other event was there before it, with the same timestamp. *)
Theorem loading_set_only_shrinks (ev : event) (w : world) id startedAt :
  is_submission ev = false →
  loadingImages (step JSON_parse ToString WebSocket_accepts w ev) !! id = Some startedAt →
  loadingImages w !! id = Some startedAt.
Proof.
  intros Hev. apply settled_loading_shrinks. by apply step_settled.
Qed.

(** X5: A displayed result is never lost: a job that has an entry in the result
    list before an event, whatever the event, has one after it. *)
Theorem result_entries_persist (ev : event) (w : world) id :
  entries_for id (images w) ≠ [] →
  entries_for id (images (step JSON_parse ToString WebSocket_accepts w ev)) ≠ [].
Proof.
  set (Q := λ w : world, entries_for id (images w) ≠ []).
  assert (∀ e, keeps Q (setImages (upsert e))) as Hupsert.
  { intros e w1 Hw1. unfold Q in *. simpl.
    destruct (decide (id = img_id e)) as [->|Hne].
    - by rewrite entries_for_upsert_same.
    - by rewrite entries_for_upsert_other. }
  destruct (is_submission ev) eqn:Hev.
  - destruct ev; try discriminate. unfold step, handle, run.
    apply (requestImageGeneration_keeps ToString WebSocket_accepts Q);
      try done; unfold keeps; intros; unfold Q in *; simpl in *; by eauto.
  - unfold step, run.
    apply (handle_keeps JSON_parse ToString WebSocket_accepts Q);
      try done; unfold keeps; intros; unfold Q in *; simpl in *; by eauto.
Qed.

(** X6: The connection status is always one of [disconnected], [connected] and
    [error]; it is never [connecting], the value for which the button is
    disabled. *)
Theorem connectionStatus_never_connecting (evs : list event) :
  connectionStatus (run_events JSON_parse ToString WebSocket_accepts evs initial)
    ∈ ["connected"; "error"; "disconnected"]
  ∧ connectionStatus (run_events JSON_parse ToString WebSocket_accepts evs initial)
    ≠ "connecting".
Proof.
  set (Q := λ w : world, connectionStatus w ∈ ["connected"; "error"; "disconnected"]).
  assert (∀ ev w, Q w → Q (step JSON_parse ToString WebSocket_accepts w ev)) as Hstep.
  { intros ev w Hw. destruct (is_submission ev) eqn:Hev.
    - destruct ev; try discriminate. unfold step, handle, run.
      apply (requestImageGeneration_keeps ToString WebSocket_accepts Q);
        try done; unfold keeps; intros; unfold Q in *; simpl in *; by eauto.
    - unfold step, run.
      apply (handle_keeps JSON_parse ToString WebSocket_accepts Q);
        try done; unfold keeps; intros; unfold Q in *; simpl in *; by eauto. }
  assert (∀ w, Q w → Q (run_events JSON_parse ToString WebSocket_accepts evs w)) as Hrun.
  { unfold run_events. induction evs as [|ev evs IH]; intros w Hw; simpl; [done|].
    by apply IH, Hstep. }
  assert (Q initial) as H0 by (unfold Q; simpl; set_solver).
  specialize (Hrun initial H0). split; [exact Hrun|].
  unfold Q in Hrun. intros Heq. rewrite Heq in Hrun.
  repeat (apply elem_of_cons in Hrun as [Hrun|Hrun]; [discriminate|]).
  by apply elem_of_nil in Hrun.
Qed.

End Lists.

(** ** No exception escapes a handler *)

Section Completion.

Variable JSON_parse : string → option json.
Variable ToString : value → string.
Variable WebSocket_accepts : string → bool.

Lemma completes_try_catch (body handler_body : js unit) :
  completes handler_body → completes (try_catch body (λ _, handler_body)).
Proof.
  intros Hh w. unfold try_catch.
  destruct (body w) as [[[]|e] w']; eauto.
Qed.

Lemma completes_skip : completes skip.
Proof. intros w. by eexists. Qed.

Lemma completes_bind (m k : js unit) :
  completes m → completes k → completes (m ;; k).
Proof.
  intros Hm Hk w. unfold bind. destruct (Hm w) as [w' ->]. apply Hk.
Qed.

Lemma completes_for_of {A} (xs : list A) (body : A → js unit) :
  (∀ x, completes (body x)) → completes (for_of xs body).
Proof.
  intros Hb. induction xs as [|x xs IH]; simpl.
  - apply completes_skip.
  - by apply completes_bind.
Qed.

Lemma completes_on_socket ws (handler : string → nat → js unit) :
  (∀ requestId, completes (handler requestId ws)) →
  completes (on_socket ws handler).
Proof.
  intros Hh w. unfold on_socket. destruct (sockets w !! ws); [apply Hh|by eexists].
Qed.

Lemma poll_completes reqId r : completes (poll reqId r).
Proof. apply completes_try_catch, completes_skip. Qed.

Lemma status_reply_completes requestId r : completes (status_reply requestId r).
Proof. apply completes_try_catch, completes_skip. Qed.

Lemma onmessage_completes requestId ws event_data :
  completes (onmessage JSON_parse requestId ws event_data).
Proof. apply completes_try_catch, completes_skip. Qed.

Lemma checkStaleRequests_completes now responses :
  completes (checkStaleRequests now responses).
Proof.
  intros w. unfold checkStaleRequests.
  apply (completes_for_of _ (λ reqId, poll reqId (responses reqId))).
  intros reqId. apply poll_completes.
Qed.

Lemma requestImageGeneration_completes r now :
  completes (requestImageGeneration ToString WebSocket_accepts r now).
Proof.
  apply completes_try_catch. intros w. by eexists.
Qed.

Lemma onopen_completes requestId ws : completes (onopen requestId ws).
Proof.
  unfold onopen. apply completes_bind; [intros w; by eexists|].
  apply completes_try_catch, completes_skip.
Qed.

Lemma fire_completes t w :
  is_Some (sockets w !! timer_ws t) → ∃ w', fire t w = (Done tt, w').
Proof.
  intros [s Hs]. destruct t; simpl in Hs; unfold fire; js_unfold; rewrite Hs;
    destruct (readyState s) eqn:Hst; simpl; rewrite ?Hs, ?Hst; by eexists.
Qed.

(** X1: No exception escapes an event handler: a submission, a poll tick, a
    poll reply, a socket event with any frame in any socket state, and the
    reply to the handoff query all complete, whatever the network returned.
    A timer callback completes when its socket exists, which it does for
    every timer the component registers. *)
Theorem handlers_never_throw (ev : event) (w : world) :
  (∀ t, ev = TimerFired t → is_Some (sockets w !! timer_ws t)) →
  ∃ w', handle JSON_parse ToString WebSocket_accepts ev w = (Done tt, w').
Proof.
  intros Htimer. destruct ev; unfold handle.
  - apply requestImageGeneration_completes.
  - apply checkStaleRequests_completes.
  - apply poll_completes.
  - apply completes_bind; [intros w1; by eexists|].
    apply completes_on_socket. intros requestId. apply onopen_completes.
  - apply completes_on_socket. intros requestId. apply onmessage_completes.
  - apply completes_on_socket. intros requestId w1. by eexists.
  - apply completes_bind; [intros w1; by eexists|].
    apply completes_on_socket. intros requestId w1. by eexists.
  - apply fire_completes. by apply Htimer.
  - apply status_reply_completes.
Qed.

End Completion.

(** ** A whole poll tick *)

Lemma for_of_foldl {A} (xs : list A) (body : A → js unit) w :
  (∀ x, completes (body x)) →
  for_of xs body w = (Done tt, foldl (λ w x, run (body x) w) w xs).
Proof.
  intros Hb. revert w. induction xs as [|x xs IH]; intros w; [done|].
  simpl. unfold bind, run. destruct (Hb x w) as [w' ->]. simpl. apply IH.
Qed.

(** A tick runs the loop body on each selected job in turn and completes. *)
Lemma checkStaleRequests_foldl now responses w :
  checkStaleRequests now responses w
  = (Done tt,
     foldl (λ w reqId, run (poll reqId (responses reqId)) w) w
       (staleRequestIds now (loadingImages w))).
Proof.
  unfold checkStaleRequests.
  apply (for_of_foldl _ (λ reqId, poll reqId (responses reqId))).
  intros reqId. apply poll_completes.
Qed.

Lemma staleRequestIds_nil now (loadingImages : gmap string Z) :
  (∀ reqId startedAt, loadingImages !! reqId = Some startedAt → now - startedAt ≤ 12000) →
  staleRequestIds now loadingImages = [].
Proof.
  intros Hyoung. destruct (staleRequestIds now loadingImages) as [|reqId l] eqn:Hl; [done|].
  assert (reqId ∈ staleRequestIds now loadingImages) as Hin by (rewrite Hl; left).
  apply staleRequestIds_spec in Hin as (ts & Hts & Hold).
  specialize (Hyoung reqId ts Hts). lia.
Qed.



Lemma polls_other (responses : string → fetch_result) (l : list string) id w :
  id ∉ l →
  let w' := foldl (λ w reqId, run (poll reqId (responses reqId)) w) w l in
  loadingImages w' !! id = loadingImages w !! id
  ∧ entries_for id (images w') = entries_for id (images w).
Proof.
  revert w. induction l as [|reqId l IH]; intros w Hnotin; simpl; [done|].
  apply not_elem_of_cons in Hnotin as [Hne Hnotin].
  destruct (IH (run (poll reqId (responses reqId)) w) Hnotin) as [-> ->].
  apply (delivery_for_other reqId); [apply poll_delivery_for|done].
Qed.

Lemma polls_resolve (responses : string → fetch_result) (l : list string) id w
    status data e :
  NoDup l → id ∈ l →
  responses id = Response status (Some data) → ok status = true →
  polled_entry id data = Some e →
  let w' := foldl (λ w reqId, run (poll reqId (responses reqId)) w) w l in
  loadingImages w' !! id = None ∧ entries_for id (images w') = [e].
Proof.
  intros Hnodup Hin Hr Hok He. revert w.
  induction Hnodup as [|reqId l Hnotin Hnodup IH]; intros w; [by apply elem_of_nil in Hin|].
  simpl. apply elem_of_cons in Hin as [<-|Hin].
  - destruct (polls_other responses l id (run (poll id (responses id)) w) Hnotin)
      as [-> ->].
    rewrite Hr. destruct (poll_polled id status data e w Hok He) as [-> ->].
    split.
    + unfold forget. apply lookup_delete_eq.
    + rewrite <- (polled_entry_id id data e He). apply entries_for_upsert_same.
  - by apply IH.
Qed.

(** X9: A tick that finds no job older than 12000 ms does nothing: no status
    query is issued and the world is unchanged. *)
Theorem tick_without_stale_jobs now responses w :
  (∀ reqId startedAt,
     loadingImages w !! reqId = Some startedAt → now - startedAt ≤ 12000) →
  checkStaleRequests now responses w = (Done tt, w).
Proof.
  intros Hyoung. rewrite checkStaleRequests_foldl.
  by rewrite (staleRequestIds_nil _ _ Hyoung).
Qed.


(** X11: A tick leaves every job it did not select as it found it: the job's
    loading entry and its entries in the result list are unchanged. *)
Theorem tick_leaves_other_jobs now responses w id :
  id ∉ staleRequestIds now (loadingImages w) →
  loadingImages (run (checkStaleRequests now responses) w) !! id
  = loadingImages w !! id
  ∧ entries_for id (images (run (checkStaleRequests now responses) w))
    = entries_for id (images w).
Proof.
  intros Hnotin. unfold run. rewrite checkStaleRequests_foldl. simpl.
  by apply polls_other.
Qed.

Lemma checkStaleRequests_resolves now responses w id startedAt status data e :
  loadingImages w !! id = Some startedAt → now - startedAt > 12000 →
  responses id = Response status (Some data) → ok status = true →
  polled_entry id data = Some e →
  loadingImages (run (checkStaleRequests now responses) w) !! id = None
  ∧ entries_for id (images (run (checkStaleRequests now responses) w)) = [e].
Proof.
  intros Hts Hold Hr Hok He. unfold run. rewrite checkStaleRequests_foldl. simpl.
  apply polls_resolve with (status := status) (data := data); try done.
  - apply staleRequestIds_NoDup.
  - apply staleRequestIds_spec. eauto.
Qed.

(** X12: A tick resolves every selected job whose status response is 2xx and
    carries a result, whatever the replies for the other jobs are (failures
    included): afterwards the job has no loading entry and exactly one entry
    in the result list, the one of its response. *)
Theorem tick_resolves_answered_jobs now responses w id startedAt status data e :
  loadingImages w !! id = Some startedAt → now - startedAt > 12000 →
  responses id = Response status (Some data) → ok status = true →
  polled_entry id data = Some e →
  loadingImages (run (checkStaleRequests now responses) w) !! id = None
  ∧ entries_for id (images (run (checkStaleRequests now responses) w)) = [e].
Proof. apply checkStaleRequests_resolves. Qed.

(** ** Replies and frames, case by case *)

Lemma is_string_false lit (v : value) : v ≠ Some (JStr lit) → is_string lit v = false.
Proof.
  intros Hne. destruct v as [[| | |s| |]|]; simpl; try done.
  apply String.eqb_neq. congruence.
Qed.

Section Cases.

Variable JSON_parse : string → option json.

(** X7: A frame for one job, a poll reply for it, or the reply to its handoff
    query never touches another job: the other job's loading entry and its
    entries in the result list are as before. *)
Theorem delivery_touches_one_job id id' ws event_data r w :
  id' ≠ id →
  (loadingImages (run (onmessage JSON_parse id ws event_data) w) !! id'
   = loadingImages w !! id'
   ∧ entries_for id' (images (run (onmessage JSON_parse id ws event_data) w))
     = entries_for id' (images w))
  ∧ (loadingImages (run (poll id r) w) !! id' = loadingImages w !! id'
     ∧ entries_for id' (images (run (poll id r) w)) = entries_for id' (images w))
  ∧ (loadingImages (run (status_reply id r) w) !! id' = loadingImages w !! id'
     ∧ entries_for id' (images (run (status_reply id r) w))
       = entries_for id' (images w)).
Proof.
  intros Hne. repeat split;
    eapply (delivery_for_other id);
    eauto using onmessage_delivery_for, poll_delivery_for, status_reply_delivery_for.
Qed.

(** X13: A poll that fails is absorbed: when the [fetch] rejects, the response is
    not 2xx, its body is not JSON or is [null], or its status is neither
    [completed] nor [error] ([processing], say), the loop body has only
    issued its query; the lists, the sockets and the status are unchanged. *)
Theorem poll_failures_absorbed reqId r w :
  r = Rejected
  ∨ (∃ status body, r = Response status body ∧ ok status = false)
  ∨ (∃ status, r = Response status None)
  ∨ (∃ status, r = Response status (Some JNull))
  ∨ (∃ status props,
       r = Response status (Some (JObj props))
       ∧ own_property "status" props ≠ Some (JStr "completed")
       ∧ own_property "status" props ≠ Some (JStr "error")) →
  poll reqId r w
  = (Done tt,
     {| images := images w;
        loadingImages := loadingImages w;
        connectionStatus := connectionStatus w;
        sockets := sockets w;
        calls := calls w ++ [Fetch (GET ("http://127.0.0.1:8888/status/12345/" +:+ reqId))] |}).
Proof.
  intros [-> | [(status & body & -> & Hok) | [[status ->] | [[status ->]
         | (status & props & -> & Hc & He)]]]];
    unfold poll; js_unfold; simpl.
  - done.
  - by rewrite Hok.
  - destruct (ok status); by rewrite <- ?app_assoc.
  - destruct (ok status); by rewrite <- ?app_assoc.
  - rewrite (is_string_false _ _ Hc), (is_string_false _ _ He).
    destruct (ok status); by rewrite <- ?app_assoc.
Qed.

(** X14: The reply to the handoff query changes nothing unless it says
    [completed]: a rejected [fetch], a body that is not JSON or is [null],
    and any other status leave the world exactly as it was. *)
Theorem handoff_failures_absorbed requestId r w :
  r = Rejected
  ∨ (∃ status, r = Response status None)
  ∨ (∃ status, r = Response status (Some JNull))
  ∨ (∃ status props,
       r = Response status (Some (JObj props))
       ∧ own_property "status" props ≠ Some (JStr "completed")) →
  status_reply requestId r w = (Done tt, w).
Proof.
  intros [-> | [[status ->] | [[status ->] | (status & props & -> & Hc)]]];
    unfold status_reply; js_unfold; simpl; try done.
  by rewrite (is_string_false _ _ Hc).
Qed.

(** X15: The handoff does not look at [response.ok]: a [completed] body with a
    result is installed even when the response is not 2xx, while the poller
    ignores the very same response. *)
Theorem handoff_ignores_http_status requestId status props w :
  ok status = false →
  own_property "status" props = Some (JStr "completed") →
  truthy (own_property "result" props) = true →
  (images (run (status_reply requestId (Response status (Some (JObj props)))) w)
   = upsert (ImgUrl requestId (own_property "result" props)) (images w)
   ∧ loadingImages (run (status_reply requestId (Response status (Some (JObj props)))) w)
     = delete requestId (loadingImages w))
  ∧ images (run (poll requestId (Response status (Some (JObj props)))) w) = images w
  ∧ loadingImages (run (poll requestId (Response status (Some (JObj props)))) w)
    = loadingImages w.
Proof.
  intros Hok Hst Hres. unfold status_reply, poll. js_unfold. simpl.
  by rewrite Hok, Hst, Hres.
Qed.

(** X16: On an error frame an open session installs the failure, with the
    frame's message or, when that is missing or empty, the default text;
    removes the loading entry; sends the acknowledgment with status
    [error_received]; and registers a timer of 200 ms.  When the timer fires
    it closes the socket, without a code, if the socket is still open. *)
Theorem error_frame_install_ack_then_close requestId ws event_data props s w :
  event_data ≠ "pong" → event_data ≠ "server_ping" →
  JSON_parse event_data = Some (JObj props) →
  truthy (own_property "image_url" props) = false →
  own_property "status" props = Some (JStr "error") →
  sockets w !! ws = Some s → readyState s = OPEN →
  onmessage JSON_parse requestId ws event_data w
  = (Done tt,
     {| images :=
          upsert
            (ImgError requestId
               (if truthy (own_property "message" props)
                then own_property "message" props
                else Some (JStr "An error occurred during image generation")))
            (images w);
        loadingImages := delete requestId (loadingImages w);
        connectionStatus := connectionStatus w;
        sockets := sockets w;
        calls := calls w ++
          [SetImages; SetLoadingImages;
           Send ws (Stringify (JObj [("type", JStr "acknowledgment");
                                     ("request_id", JStr requestId);
                                     ("status", JStr "error_received")]));
           SetTimeout (CloseAfterError ws) 200] |})
  ∧ ∀ w1 s1, sockets w1 !! ws = Some s1 →
      fire (CloseAfterError ws) w1
      = match readyState s1 with
        | OPEN =>
            (Done tt,
             {| images := images w1;
                loadingImages := loadingImages w1;
                connectionStatus := connectionStatus w1;
                sockets := alter (set_readyState CLOSING) ws (sockets w1);
                calls := calls w1 ++ [Close ws None None] |})
        | _ => (Done tt, w1)
        end.
Proof.
  intros Hpong Hping Hparse Hurl Hst Hs Hopen. split.
  - unfold onmessage.
    rewrite (eqb_false_of_ne _ _ Hpong), (eqb_false_of_ne _ _ Hping), Hparse.
    js_unfold. simpl. rewrite Hurl, Hst. simpl. rewrite Hs, Hopen. simpl.
    by rewrite <- !app_assoc.
  - intros w1 s1 Hs1. unfold fire. js_unfold. rewrite Hs1.
    destruct (readyState s1) eqn:Hst1; try done.
    rewrite Hs1, Hst1. done.
Qed.

End Cases.

(** X17: When the socket opens, the session sets the status to [connected] and
    sends [{type: "ready", request_id}] on it; the lists are untouched. *)
Theorem open_announces_ready requestId ws s w :
  sockets w !! ws = Some s → readyState s = OPEN →
  onopen requestId ws w
  = (Done tt,
     {| images := images w;
        loadingImages := loadingImages w;
        connectionStatus := "connected";
        sockets := sockets w;
        calls := calls w ++
          [SetConnectionStatus "connected";
           Send ws (Stringify (JObj [("type", JStr "ready");
                                     ("request_id", JStr requestId)]))] |}).
Proof.
  intros Hs Hopen. unfold onopen. js_unfold. simpl. rewrite Hs, Hopen. simpl.
  by rewrite <- !app_assoc.
Qed.

(** ** Submissions and whole lifecycles *)

Section Lifecycle.

Variable JSON_parse : string → option json.
Variable ToString : value → string.
Variable WebSocket_accepts : string → bool.

Lemma requestImageGeneration_ok status props now w :
  ok status = true →
  requestImageGeneration ToString WebSocket_accepts
    (Response status (Some (JObj props))) now w
  = (Done tt,
     let id := ToString (own_property "request_id" props) in
     if WebSocket_accepts (ws_url id) then
       {| images := images w;
          loadingImages := <[id := now]> (loadingImages w);
          connectionStatus := connectionStatus w;
          sockets := sockets w ++ [Socket (ws_url id) id CONNECTING];
          calls := calls w ++
            [Fetch (POST "http://127.0.0.1:8888/generate" (JObj [("user_id", JStr "12345")]));
             SetLoadingImages] |}
     else
       {| images := images w;
          loadingImages := <[id := now]> (loadingImages w);
          connectionStatus := connectionStatus w;
          sockets := sockets w;
          calls := calls w ++
            [Fetch (POST "http://127.0.0.1:8888/generate" (JObj [("user_id", JStr "12345")]));
             SetLoadingImages;
             Alert "Failed to request image generation. Please try again."] |}).
Proof.
  intros Hok. unfold requestImageGeneration, setupWebSocket, new_WebSocket.
  js_unfold. simpl. rewrite Hok. simpl.
  destruct (WebSocket_accepts _); simpl; by rewrite <- !app_assoc.
Qed.



(** X18: A successful submission records the job and opens its socket: for a 2xx
    response whose body is an object, the loading set gets the key
    [request_id] (as a property key) with the current time, replacing an
    older timestamp under the same key, and a connecting socket for
    [ws://127.0.0.1:8888/ws/12345/<id>] is added.  The result list is
    untouched and no alert is shown. *)
Theorem submission_creates_job status props now w :
  ok status = true →
  WebSocket_accepts
    ("ws://127.0.0.1:8888/ws/12345/" +:+ ToString (own_property "request_id" props))
  = true →
  requestImageGeneration ToString WebSocket_accepts
    (Response status (Some (JObj props))) now w
  = (Done tt,
     {| images := images w;
        loadingImages :=
          <[ToString (own_property "request_id" props) := now]> (loadingImages w);
        connectionStatus := connectionStatus w;
        sockets := sockets w ++
          [Socket ("ws://127.0.0.1:8888/ws/12345/"
                     +:+ ToString (own_property "request_id" props))
             (ToString (own_property "request_id" props)) CONNECTING];
        calls := calls w ++
          [Fetch (POST "http://127.0.0.1:8888/generate" (JObj [("user_id", JStr "12345")]));
           SetLoadingImages] |}).
Proof.
  intros Hok Hacc. rewrite (requestImageGeneration_ok _ _ _ _ Hok). cbv zeta.
  change (ws_url (ToString (own_property "request_id" props)))
    with ("ws://127.0.0.1:8888/ws/12345/" +:+ ToString (own_property "request_id" props)).
  by rewrite Hacc.
Qed.

(** X19: When the [WebSocket] constructor throws, the alert is shown although the
    loading entry has already been written: the job stays in the loading set
    without a socket. *)
Theorem submission_without_socket status props now w :
  ok status = true →
  WebSocket_accepts
    ("ws://127.0.0.1:8888/ws/12345/" +:+ ToString (own_property "request_id" props))
  = false →
  requestImageGeneration ToString WebSocket_accepts
    (Response status (Some (JObj props))) now w
  = (Done tt,
     {| images := images w;
        loadingImages :=
          <[ToString (own_property "request_id" props) := now]> (loadingImages w);
        connectionStatus := connectionStatus w;
        sockets := sockets w;
        calls := calls w ++
          [Fetch (POST "http://127.0.0.1:8888/generate" (JObj [("user_id", JStr "12345")]));
           SetLoadingImages;
           Alert "Failed to request image generation. Please try again."] |}).
Proof.
  intros Hok Hacc. rewrite (requestImageGeneration_ok _ _ _ _ Hok). cbv zeta.
  change (ws_url (ToString (own_property "request_id" props)))
    with ("ws://127.0.0.1:8888/ws/12345/" +:+ ToString (own_property "request_id" props)).
  by rewrite Hacc.
Qed.

(** X20: A 2xx response whose body is not JSON, or is the JSON [null], is a
    failed submission too: the alert is shown and nothing is created. *)
Theorem submission_with_unreadable_body status body now w :
  ok status = true →
  body = None ∨ body = Some JNull →
  requestImageGeneration ToString WebSocket_accepts (Response status body) now w
  = (Done tt,
     {| images := images w;
        loadingImages := loadingImages w;
        connectionStatus := connectionStatus w;
        sockets := sockets w;
        calls := calls w ++
          [Fetch (POST "http://127.0.0.1:8888/generate" (JObj [("user_id", JStr "12345")]));
           Alert "Failed to request image generation. Please try again."] |}).
Proof.
  intros Hok [-> | ->]; unfold requestImageGeneration; js_unfold; simpl;
    rewrite Hok; simpl; by rewrite <- !app_assoc.
Qed.

(** X21: A job submitted at time [now] is selected by a tick at time [now'] if
    and only if [now' - now > 12000], whether or not its socket could be
    opened. *)
Theorem submitted_job_becomes_stale status props now now' w :
  ok status = true →
  ToString (own_property "request_id" props)
    ∈ staleRequestIds now'
        (loadingImages
           (run (requestImageGeneration ToString WebSocket_accepts
                   (Response status (Some (JObj props))) now) w))
  ↔ now' - now > 12000.
Proof.
  intros Hok. unfold run. rewrite (requestImageGeneration_ok _ _ _ _ Hok).
  cbv zeta. rewrite staleRequestIds_spec.
  assert (∀ l, <[ToString (own_property "request_id" props) := now]> l
               !! ToString (own_property "request_id" props) = Some now) as Hl
    by (intros l; apply lookup_insert_eq).
  destruct (WebSocket_accepts _); simpl; rewrite Hl; split.
  - intros (ts & Hts & Hold). by simplify_eq.
  - eauto.
  - intros (ts & Hts & Hold). by simplify_eq.
  - eauto.
Qed.


(** X23: The fallback lifecycle: submit a job whose push never arrives, then run
    a tick more than 12000 ms later whose status query is answered with a
    result.  The job is resolved by the tick alone: it is no longer loading
    and the result list holds exactly the entry of the response. *)
Theorem submit_then_poll_lifecycle status props now now' responses status' data e w :
  ok status = true →
  now' - now > 12000 →
  responses (ToString (own_property "request_id" props))
  = Response status' (Some data) →
  ok status' = true →
  polled_entry (ToString (own_property "request_id" props)) data = Some e →
  let id := ToString (own_property "request_id" props) in
  let w' :=
    run_events JSON_parse ToString WebSocket_accepts
      [Generate (Response status (Some (JObj props))) now; PollTick now' responses] w in
  loadingImages w' !! id = None ∧ entries_for id (images w') = [e].
Proof.
  intros Hok Hold Hr Hok' He id w'. subst w'. unfold run_events. simpl.
  unfold step at 1. unfold handle.
  apply checkStaleRequests_resolves
    with (startedAt := now) (status := status') (data := data); try done.
  unfold step, handle, run. rewrite (requestImageGeneration_ok _ _ _ _ Hok).
  cbv zeta. fold id. destruct (WebSocket_accepts _); simpl; apply lookup_insert_eq.
Qed.

End Lifecycle.

(** ** Timers *)

(** X24: Timers close a socket at most once: when two timers are pending for an
    open socket, as after a payload frame followed by an error frame, the
    first to fire closes it and the second does nothing. *)
Theorem timers_close_once t1 t2 s w :
  timer_ws t1 = timer_ws t2 →
  sockets w !! timer_ws t1 = Some s → readyState s = OPEN →
  closes (calls (run (fire t2) (run (fire t1) w)))
  = closes (calls w) ++ [timer_ws t1]
  ∧ run (fire t2) (run (fire t1) w) = run (fire t1) w.
Proof.
  intros Heq Hs Hopen.
  destruct t1 as [ws|ws], t2 as [ws2|ws2]; simpl in *; subst ws2;
    unfold run, fire, closes; js_unfold; simpl;
    rewrite Hs, Hopen; simpl; rewrite Hs, Hopen; simpl;
    rewrite list_lookup_alter_eq, Hs; simpl; by rewrite omap_app.
Qed.

(** ** The further properties on the sample data *)

Lemma handlers_never_throw_witness :
  ∃ w', handle Sample.parse Sample.to_string Sample.accepts
          (TimerFired (CloseAfterImage 0)) Sample.session
        = (Done tt, w').
Proof.
  apply handlers_never_throw.
  intros t Ht. injection Ht as <-. simpl. by eexists.
Defined.

Lemma non_submission_settles_witness :
  settled Sample.session
    (step Sample.parse Sample.to_string Sample.accepts Sample.session
       (WsMessage 0 Sample.payload_text)).
Proof. apply non_submission_settles. reflexivity. Defined.

Lemma no_overlap_preserved_witness :
  no_overlap
    (step Sample.parse Sample.to_string Sample.accepts Sample.session
       (WsMessage 0 Sample.payload_text)).
Proof.
  apply no_overlap_preserved.
  - reflexivity.
  - intros id _. reflexivity.
Defined.

Lemma loading_set_only_shrinks_witness :
  loadingImages Sample.two_jobs !! "def456" = Some 5000.
Proof.
  apply (loading_set_only_shrinks Sample.parse Sample.to_string Sample.accepts
           (PollReply "abc123" (Response 200 (Some Sample.completed)))).
  - reflexivity.
  - by vm_compute.
Defined.

Lemma result_entries_persist_witness :
  entries_for "abc123"
    (images (step Sample.parse Sample.to_string Sample.accepts Sample.resolved
               (WsMessage 0 Sample.payload_text)))
  ≠ [].
Proof.
  apply result_entries_persist. by vm_compute.
Defined.

Lemma tick_without_stale_jobs_witness :
  checkStaleRequests 12000 Sample.replies Sample.session = (Done tt, Sample.session).
Proof.
  apply tick_without_stale_jobs.
  intros reqId startedAt Hts. simpl in Hts.
  apply lookup_singleton_Some in Hts as [_ <-]. lia.
Defined.

Lemma tick_leaves_other_jobs_witness :
  loadingImages (run (checkStaleRequests 13000 Sample.replies) Sample.two_jobs) !! "def456"
  = loadingImages Sample.two_jobs !! "def456"
  ∧ entries_for "def456"
      (images (run (checkStaleRequests 13000 Sample.replies) Sample.two_jobs))
    = entries_for "def456" (images Sample.two_jobs).
Proof.
  apply tick_leaves_other_jobs.
  replace (staleRequestIds 13000 (loadingImages Sample.two_jobs)) with ["abc123"]
    by (by vm_compute).
  apply not_elem_of_cons. split; [discriminate|apply not_elem_of_nil].
Defined.

Lemma tick_resolves_answered_jobs_witness :
  loadingImages (run (checkStaleRequests 13000 Sample.replies) Sample.two_jobs) !! "abc123"
  = None
  ∧ entries_for "abc123"
      (images (run (checkStaleRequests 13000 Sample.replies) Sample.two_jobs))
    = [ImgUrl "abc123" (Some (JStr "http://x/y.png"))].
Proof.
  apply (tick_resolves_answered_jobs 13000 Sample.replies Sample.two_jobs "abc123"
           0 200 Sample.completed).
  - by vm_compute.
  - lia.
  - reflexivity.
  - reflexivity.
  - reflexivity.
Defined.

Lemma delivery_touches_one_job_witness :
  loadingImages
    (run (onmessage Sample.parse "abc123" 0%nat Sample.payload_text) Sample.two_jobs)
    !! "def456"
  = loadingImages Sample.two_jobs !! "def456".
Proof.
  apply (delivery_touches_one_job Sample.parse "abc123" "def456" 0%nat
           Sample.payload_text Rejected Sample.two_jobs).
  discriminate.
Defined.

Lemma poll_failures_absorbed_witness :
  calls (snd (poll "abc123" (Response 503 None) Sample.session))
  = [Fetch (GET "http://127.0.0.1:8888/status/12345/abc123")].
Proof.
  rewrite (poll_failures_absorbed "abc123" (Response 503 None) Sample.session).
  - reflexivity.
  - right. left. exists 503, None. split; reflexivity.
Defined.

Lemma handoff_failures_absorbed_witness :
  status_reply "abc123" (Response 200 (Some Sample.failed)) Sample.session
  = (Done tt, Sample.session).
Proof.
  apply handoff_failures_absorbed.
  right. right. right.
  exists 200, [("status", JStr "error"); ("error", JStr "OOM")].
  split; [reflexivity|discriminate].
Defined.

Lemma handoff_ignores_http_status_witness :
  images (run (status_reply "abc123" (Response 500 (Some Sample.completed))) Sample.session)
  = upsert (ImgUrl "abc123" (Some (JStr "http://x/y.png"))) (images Sample.session)
  ∧ images (run (poll "abc123" (Response 500 (Some Sample.completed))) Sample.session)
    = images Sample.session.
Proof.
  destruct (handoff_ignores_http_status "abc123" 500
              [("status", JStr "completed"); ("result", JStr "http://x/y.png")]
              Sample.session) as ((Hi & _) & Hp & _).
  - reflexivity.
  - reflexivity.
  - reflexivity.
  - split; [exact Hi|exact Hp].
Defined.

Lemma error_frame_install_ack_then_close_witness :
  calls (snd (onmessage Sample.parse "abc123" 0%nat Sample.error_text Sample.session))
  = [SetImages; SetLoadingImages;
     Send 0%nat (Stringify (JObj [("type", JStr "acknowledgment");
                                  ("request_id", JStr "abc123");
                                  ("status", JStr "error_received")]));
     SetTimeout (CloseAfterError 0%nat) 200].
Proof.
  destruct (error_frame_install_ack_then_close Sample.parse "abc123" 0%nat
              Sample.error_text [("status", JStr "error"); ("message", JStr "boom")]
              (Socket "ws://127.0.0.1:8888/ws/12345/abc123" "abc123" OPEN)
              Sample.session) as [-> _].
  - apply sample_error_not_heartbeat.
  - apply sample_error_not_heartbeat.
  - reflexivity.
  - reflexivity.
  - reflexivity.
  - reflexivity.
  - reflexivity.
  - reflexivity.
Defined.

Lemma open_announces_ready_witness :
  calls (snd (onopen "abc123" 0%nat Sample.session))
  = [SetConnectionStatus "connected";
     Send 0%nat (Stringify (JObj [("type", JStr "ready");
                                  ("request_id", JStr "abc123")]))].
Proof.
  rewrite (open_announces_ready "abc123" 0%nat
             (Socket "ws://127.0.0.1:8888/ws/12345/abc123" "abc123" OPEN)
             Sample.session).
  - reflexivity.
  - reflexivity.
  - reflexivity.
Defined.

Lemma submission_creates_job_witness :
  sockets
    (snd (requestImageGeneration Sample.to_string Sample.accepts
            (Response 200 (Some (JObj Sample.generated))) 7 initial))
  = [Socket "ws://127.0.0.1:8888/ws/12345/abc123" "abc123" CONNECTING].
Proof.
  rewrite (submission_creates_job Sample.to_string Sample.accepts 200
             Sample.generated 7 initial).
  - reflexivity.
  - reflexivity.
  - reflexivity.
Defined.

Lemma submission_without_socket_witness :
  calls
    (snd (requestImageGeneration Sample.to_string Sample.rejects
            (Response 200 (Some (JObj Sample.generated))) 7 initial))
  = [Fetch (POST "http://127.0.0.1:8888/generate" (JObj [("user_id", JStr "12345")]));
     SetLoadingImages;
     Alert "Failed to request image generation. Please try again."].
Proof.
  rewrite (submission_without_socket Sample.to_string Sample.rejects 200
             Sample.generated 7 initial).
  - reflexivity.
  - reflexivity.
  - reflexivity.
Defined.

Lemma submission_with_unreadable_body_witness :
  calls
    (snd (requestImageGeneration Sample.to_string Sample.accepts
            (Response 200 None) 7 initial))
  = [Fetch (POST "http://127.0.0.1:8888/generate" (JObj [("user_id", JStr "12345")]));
     Alert "Failed to request image generation. Please try again."].
Proof.
  rewrite (submission_with_unreadable_body Sample.to_string Sample.accepts 200
             None 7 initial).
  - reflexivity.
  - reflexivity.
  - by left.
Defined.

Lemma submitted_job_becomes_stale_witness :
  "abc123"
    ∈ staleRequestIds 12008
        (loadingImages
           (run (requestImageGeneration Sample.to_string Sample.accepts
                   (Response 200 (Some (JObj Sample.generated))) 7) initial)).
Proof.
  apply (submitted_job_becomes_stale Sample.to_string Sample.accepts 200
           Sample.generated 7 12008 initial).
  - reflexivity.
  - lia.
Defined.


Lemma submit_then_poll_lifecycle_witness :
  entries_for "abc123"
    (images
       (run_events Sample.parse Sample.to_string Sample.accepts
          [Generate (Response 200 (Some (JObj Sample.generated))) 7;
           PollTick 13000 (λ _, Response 200 (Some Sample.failed))] initial))
  = [ImgError "abc123" (Some (JStr "OOM"))].
Proof.
  apply (submit_then_poll_lifecycle Sample.parse Sample.to_string Sample.accepts
           200 Sample.generated 7 13000 (λ _, Response 200 (Some Sample.failed))
           200 Sample.failed (ImgError "abc123" (Some (JStr "OOM"))) initial).
  - reflexivity.
  - lia.
  - reflexivity.
  - reflexivity.
  - reflexivity.
Defined.

Lemma timers_close_once_witness :
  closes
    (calls (run (fire (CloseAfterError 0)) (run (fire (CloseAfterImage 0)) Sample.session)))
  = [0%nat].
Proof.
  apply (timers_close_once (CloseAfterImage 0) (CloseAfterError 0)
           (Socket "ws://127.0.0.1:8888/ws/12345/abc123" "abc123" OPEN)
           Sample.session).
  - reflexivity.
  - reflexivity.
  - reflexivity.
Defined.

(** ** Order of the result list *)

(** X8: The newest result is shown last: after a delivery for a job, its entry
    is the last element of the result list, and the entries of the other
    jobs keep their relative order. *)
Theorem delivered_entry_is_last JSON_parse id e m w :
  applies JSON_parse id e m →
  last (images (run m w)) = Some e
  ∧ filter (λ i, img_id i ≠ id) (images (run m w))
    = filter (λ i, img_id i ≠ id) (images w).
Proof.
  intros Hm. destruct (applies_effect JSON_parse id e m w Hm) as [-> _].
  pose proof (applies_id JSON_parse id e m Hm) as <-.
  unfold upsert. split; [apply last_snoc|].
  rewrite filter_app, filter_cons, decide_False by (intros H; by apply H).
  rewrite filter_nil, app_nil_r.
  induction (images w) as [|i l IH]; [done|].
  rewrite !filter_cons. case_decide; [|done].
  rewrite filter_cons, decide_True by done. by rewrite IH.
Qed.

Lemma delivered_entry_is_last_witness :
  last (images (run (onmessage Sample.parse "abc123" 0%nat Sample.payload_text)
                  Sample.resolved))
  = Some (ImgUrl "abc123" (Some (JStr "http://x/y.png"))).
Proof.
  apply (delivered_entry_is_last Sample.parse "abc123").
  apply sample_push_payload.
Defined.
